(** * dream-warrior: the environment adapter, the DQN optimisation step and
      the epsilon-greedy trainer, embedded from the Python sources

    - [Py]      : the Python and torch primitives the code relies on
                  (list indexing, [list.index], [deque(maxlen=..)],
                  [torch.cat], [torch.stack], [max(0)]).
    - [DreamEnv]: src/dreamwarrior/dream_env.py
    - [DQN]     : src/dreamwarrior/models/dqn_model.py ([optimize_model])
    - [Trainer] : src/dreamwarrior/trainers/dqn_trainer.py
    - [NoisyNetDQN] : src/dreamwarrior/nn/noisynet_dqn.py (tensor shapes)
    - [Screen]  : [get_screen] of the model and of the trainer
    - [Toy]     : small concrete collaborators to run the definitions on

    The retro base class, torch, the network class and the random module
    are external and enter as records of operations ([RetroEnv],
    [DQN.Torch], [Trainer.Runtime]). The definitions come first, the facts
    about them after: primitives, adapter, optimisation step, trainer, and
    last the statements at concrete inputs.

    Exceptions are values: a computation that can raise returns
    [result A = exn + A]; a method that mutates [self] returns the new object
    next to its result, also when it raises. *)

From Stdlib Require Import ZArith String Lia.
From stdpp Require Import base tactics option list strings.

(* ===================================================================== *)
(** ** Python and torch primitives *)
(* ===================================================================== *)

Module Py.

Inductive exn : Type :=
| ValueError (msg : string)
| IndexError
| TypeError
| RuntimeError
| AttributeError (msg : string).

Definition result (A : Type) : Type := (exn + A)%type.

Definition ret {A} (a : A) : result A := inr a.
Definition raise {A} (e : exn) : result A := inl e.
Definition bind {A B} (m : result A) (k : A -> result B) : result B :=
  match m with
  | inl e => inl e
  | inr a => k a
  end.

(** [l[i]]: a negative index counts from the end, anything outside
    [-len l <= i < len l] raises IndexError. *)
Definition getitem {A} (l : list A) (i : Z) : result A :=
  let n := Z.of_nat (length l) in
  let j := if (i <? 0)%Z then (i + n)%Z else i in
  if ((0 <=? j) && (j <? n))%Z then
    match l !! Z.to_nat j with
    | Some x => ret x
    | None => raise IndexError
    end
  else raise IndexError.

(** [x in l] *)
Definition contains {A} `{EqDecision A} (x : A) (l : list A) : bool :=
  bool_decide (x ∈ l).

(** [l.index(x)]: position of the first occurrence. *)
Fixpoint index {A} `{EqDecision A} (x : A) (l : list A) : option nat :=
  match l with
  | [] => None
  | y :: l' => if decide (x = y) then Some 0 else S <$> index x l'
  end.

(** [range(n)] runs [max n 0] times. *)
Definition range_len (n : Z) : nat := Z.to_nat n.

(** [collections.deque(maxlen=m).append(x)]: append on the right, and when
    the deque was full drop from the left. *)
Definition deque_append {A} (maxlen : nat) (d : list A) (x : A) : list A :=
  let d' := d ++ [x] in
  drop (length d' - maxlen) d'.

(** [np.zeros(n, dtype=int)] followed by [a[i] = 1]; numpy raises IndexError
    when [i] is out of bounds. *)
Definition one_hot (n i : nat) : result (list Z) :=
  if decide (i < n) then ret (<[i := 1%Z]> (replicate n 0%Z))
  else raise IndexError.

(** [a = np.zeros((n,), dtype=int); a[i] = 1] for a Python integer [i],
    which may count from the end. *)
Definition zeros_set_one (n : nat) (i : Z) : result (list Z) :=
  let j := if (i <? 0)%Z then (i + Z.of_nat n)%Z else i in
  if ((0 <=? j) && (j <? Z.of_nat n))%Z
  then ret (<[Z.to_nat j := 1%Z]> (replicate n 0%Z))
  else raise IndexError.

Section Tensors.
Context {Pixel : Type} (pmax : Pixel -> Pixel -> Pixel).

(** A tensor of shape [C, H, W]: its [C] leading slices, each a flat
    [H * W] image. *)
Definition Tensor : Type := list (list Pixel).

(** [torch.cat(ts)] along dimension 0; an empty list of tensors is a
    RuntimeError. *)
Definition cat (ts : list Tensor) : result Tensor :=
  match ts with
  | [] => raise RuntimeError
  | _ => ret (concat ts)
  end.

(** [torch.stack(ts)]: a new leading dimension; an empty list is a
    RuntimeError. *)
Definition stack (ts : list Tensor) : result (list Tensor) :=
  match ts with
  | [] => raise RuntimeError
  | _ => ret ts
  end.

Definition tensor_max (a b : Tensor) : Tensor :=
  zip_with (zip_with pmax) a b.

(** [stacked.max(0)[0]]: element-wise maximum over the leading
    dimension of a stacked tensor (which [stack] made non-empty). *)
Definition max0 (stacked : list Tensor) : Tensor :=
  match stacked with
  | [] => []
  | t :: ts => foldl tensor_max t ts
  end.
End Tensors.

End Py.

Declare Scope py_scope.
Delimit Scope py_scope with py.
Notation "x <- m ;; k" := (Py.bind m (fun x => k))
  (at level 100, m at next level, right associativity) : py_scope.

(* ===================================================================== *)
(** ** The retro base class, as far as [DreamEnv] uses it *)
(* ===================================================================== *)

(** [RetroEnv] and the emulator behind it are an external library. The
    adapter only sees this interface; the emulator state [Emu] stands for
    everything the base class owns ([em], [data], [movie]). *)
Record RetroEnv : Type := {
  Emu : Type;
  Screen : Type;
  Pixel : Type;
  Reward : Type;
  Info : Type;
  Obs : Type;
  (** reward arithmetic: Python's [0] and [+] *)
  rzero : Reward;
  radd : Reward -> Reward -> Reward;
  (** element-wise maximum of two pixel intensities *)
  pmax : Pixel -> Pixel -> Pixel;
  (** [RetroEnv.step(mask)] : (ob, reward, done, info) *)
  retro_step : Emu -> list Z -> Emu * Obs * Reward * bool * Info;
  (** [render(mode='rgb_array')] *)
  render : Emu -> Screen;
  (** ToPILImage, Grayscale, Resize([height, width]), ToTensor *)
  screen_transform : Z -> Z -> Screen -> list Pixel;
  em_set_state : Emu -> Emu;
  em_set_button_mask : list Z -> nat -> Emu -> Emu;
  em_step : Emu -> Emu;
  (** [record_movie(path)], the path given as directory, name and episode *)
  record_movie : string -> string -> Z -> Emu -> Emu;
  (** [if self.movie: self.movie.step()]; the open movie is emulator state *)
  movie_step : Emu -> Emu;
  data_reset : Emu -> Emu;
  data_update_ram : Emu -> Emu;
  update_obs : Emu -> Emu * Obs
}.

Module DreamEnv.
Import Py.

Record Config : Type := {
  cfg_frame_skip : Z;
  cfg_height : Z;
  cfg_width : Z
}.

Section Adapter.
Context (R : RetroEnv).

Definition Frame : Type := Tensor (Pixel := Pixel R).

(** The attributes of a [DreamEnv] object. A button or action name is a
    string or [None] (JSON null). *)
Record t : Type := {
  frame : Z;
  frame_skip : Z;
  height : Z;
  width : Z;
  buttons : list (option string);
  num_buttons : nat;
  dream_buttons : list (option string);
  name : string;
  watching : bool;
  episode : Z;
  state_buffer : list Frame;
  (* inherited from RetroEnv *)
  em : Emu R;
  has_initial_state : bool;
  players : nat;
  movie_path : option string
}.

Definition set_em (e : Emu R) (env : t) : t :=
  {| frame := frame env; frame_skip := frame_skip env;
     height := height env; width := width env;
     buttons := buttons env; num_buttons := num_buttons env;
     dream_buttons := dream_buttons env; name := name env;
     watching := watching env; episode := episode env;
     state_buffer := state_buffer env; em := e;
     has_initial_state := has_initial_state env;
     players := players env; movie_path := movie_path env |}.

Definition set_frame (f : Z) (env : t) : t :=
  {| frame := f; frame_skip := frame_skip env;
     height := height env; width := width env;
     buttons := buttons env; num_buttons := num_buttons env;
     dream_buttons := dream_buttons env; name := name env;
     watching := watching env; episode := episode env;
     state_buffer := state_buffer env; em := em env;
     has_initial_state := has_initial_state env;
     players := players env; movie_path := movie_path env |}.

Definition set_episode (n : Z) (env : t) : t :=
  {| frame := frame env; frame_skip := frame_skip env;
     height := height env; width := width env;
     buttons := buttons env; num_buttons := num_buttons env;
     dream_buttons := dream_buttons env; name := name env;
     watching := watching env; episode := n;
     state_buffer := state_buffer env; em := em env;
     has_initial_state := has_initial_state env;
     players := players env; movie_path := movie_path env |}.

Definition set_state_buffer (b : list Frame) (env : t) : t :=
  {| frame := frame env; frame_skip := frame_skip env;
     height := height env; width := width env;
     buttons := buttons env; num_buttons := num_buttons env;
     dream_buttons := dream_buttons env; name := name env;
     watching := watching env; episode := episode env;
     state_buffer := b; em := em env;
     has_initial_state := has_initial_state env;
     players := players env; movie_path := movie_path env |}.

(** [get_frame]: the render, transformed to a one-channel tensor of
    shape [1, height, width]. *)
Definition get_frame (env : t) : Frame :=
  [screen_transform R (height env) (width env) (render R (em env))].

(** [get_state]: [torch.cat(list(self.state_buffer))]. *)
Definition get_state (env : t) : result Frame :=
  cat (state_buffer env).

(** The loop [for _ in range(self.frame_skip): self.state_buffer.append(empty_state)]
    on a [deque(maxlen=4)]. *)
Fixpoint prefill (n : nat) (buf : list Frame) (empty_state : Frame)
  : list Frame :=
  match n with
  | O => buf
  | S n' => prefill n' (deque_append 4 buf empty_state) empty_state
  end.

(** [__init__]. [base_buttons], [base_num_buttons] and [e] are what
    [super().__init__] leaves in [self.buttons], [self.num_buttons] and
    the emulator; [actions] is [Some l] when the game has a custom
    data.json with an ['actions'] list [l], [None] otherwise. *)
Definition init (config : Config) (base_buttons : list (option string))
    (base_num_buttons : nat) (actions : option (list (option string)))
    (name_arg : option string) (watching_arg : bool)
    (initial_state : bool) (nplayers : nat) (movie : option string)
    (e : Emu R) : t :=
  let env :=
    {| frame := 1;
       frame_skip := cfg_frame_skip config;
       height := cfg_height config;
       width := cfg_width config;
       buttons := base_buttons;
       num_buttons := base_num_buttons;
       dream_buttons :=
         match actions with
         | Some l => l ++ [None]
         | None => base_buttons
         end;
       name := match name_arg with Some s => s | None => "unnamed" end;
       watching := watching_arg;
       episode := 1;
       state_buffer := [];
       em := e;
       has_initial_state := initial_state;
       players := nplayers;
       movie_path := movie |} in
  let empty_state := get_frame env in
  set_state_buffer
    (prefill (range_len (frame_skip env)) (state_buffer env) empty_state)
    env.

(** [for p in range(self.players): self.em.set_button_mask(zeros, p)] *)
Fixpoint zero_buttons (p count : nat) (nb : nat) (e : Emu R) : Emu R :=
  match count with
  | O => e
  | S c => zero_buttons (S p) c nb
             (em_set_button_mask R (replicate nb 0%Z) p e)
  end.

(** [reset]. The recording goes to
    [<movie_path>/<name>-recordings/<name>-<episode>.bk2]; the file name
    is passed to the base class as its parts. *)
Definition reset (env : t) : t * Obs R :=
  let e1 := if has_initial_state env then em_set_state R (em env)
            else em env in
  let e2 := zero_buttons 0 (players env) (num_buttons env) e1 in
  let e3 := em_step R e2 in
  let '(e4, ep) :=
    match movie_path env with
    | Some dir =>
        (record_movie R dir (name env) (episode env) e3,
         (episode env + 1)%Z)
    | None => (e3, episode env)
    end in
  let e5 := movie_step R e4 in
  let e6 := data_update_ram R (data_reset R e5) in
  let '(e7, ob) := update_obs R e6 in
  (set_em e7 (set_episode ep env), ob).

(** Lines 131-138 of [step]: the reduced action index to the button
    mask. *)
Definition translate_action (env : t) (action : Z) : result (list Z) :=
  (action_name <- getitem (dream_buttons env) action ;;
   if negb (contains action_name (buttons env))
   then raise (ValueError "Invalid action")
   else
     match index action_name (buttons env) with
     | Some a => one_hot (num_buttons env) a
     | None => raise (ValueError "Invalid action")
     end)%py.

(** The state of the frame-skip loop. *)
Record loop_state : Type := {
  ls_env : t;
  ls_total_reward : Reward R;
  ls_done : bool;
  ls_frame_buffer : list Frame
}.

(** One iteration of the loop body, lines 146-153. [self.render()] for a
    watcher draws a window and changes nothing here. *)
Definition tick (mask : list Z) (s : loop_state) : loop_state :=
  let env1 := set_frame (frame (ls_env s) + 1)%Z (ls_env s) in
  let '(e', _, reward, done, _) := retro_step R (em env1) mask in
  let env2 := set_em e' env1 in
  {| ls_env := env2;
     ls_total_reward := radd R (ls_total_reward s) reward;
     ls_done := done;
     ls_frame_buffer :=
       deque_append 2 (ls_frame_buffer s) (get_frame env2) |}.

(** [for i in range(frame_skip): ...; if done: break] *)
Fixpoint tick_loop (n : nat) (mask : list Z) (s : loop_state)
  : loop_state :=
  match n with
  | O => s
  | S n' =>
      let s' := tick mask s in
      if ls_done s' then s' else tick_loop n' mask s'
  end.

(** [if frame_skip is None: frame_skip = self.frame_skip] *)
Definition effective_frame_skip (env : t) (frame_skip_arg : option Z) : Z :=
  match frame_skip_arg with
  | None => frame_skip env
  | Some n => n
  end.

Definition step_result : Type :=
  (Frame * Reward R * bool * option (Info R))%type.

(** [step(action, frame_skip=None)]. *)
Definition step (env : t) (action : Z) (frame_skip_arg : option Z)
  : t * result step_result :=
  let info : option (Info R) := None in
  match translate_action env action with
  | inl e => (env, raise e)
  | inr mask =>
      let n := effective_frame_skip env frame_skip_arg in
      let s := tick_loop (range_len n) mask
                 {| ls_env := env; ls_total_reward := rzero R;
                    ls_done := false; ls_frame_buffer := [] |} in
      match stack (ls_frame_buffer s) with
      | inl e => (ls_env s, raise e)
      | inr stacked =>
          let maxed_frame := max0 (pmax R) stacked in
          let env' :=
            set_state_buffer
              (deque_append 4 (state_buffer (ls_env s)) maxed_frame)
              (ls_env s) in
          match cat (state_buffer env') with
          | inl e => (env', raise e)
          | inr state =>
              (env', ret (state, ls_total_reward s, ls_done s, info))
          end
      end
  end.

(** *** What the underlying environment does on its own

    These definitions do not come from [step]; they describe the emulator
    stepped with one button mask, against which [step] is compared. *)

(** One raw tick: the emulator after it, its reward and its done flag. *)
Definition raw_tick : Type := (Emu R * Reward R * bool)%type.

Definition tick_em (x : raw_tick) : Emu R := fst (fst x).
Definition tick_reward (x : raw_tick) : Reward R := snd (fst x).
Definition tick_done (x : raw_tick) : bool := snd x.

(** The emulator stepped [n] times with [mask], whatever it signals. *)
Fixpoint raw_ticks (n : nat) (mask : list Z) (e : Emu R) : list raw_tick :=
  match n with
  | O => []
  | S n' =>
      let '(e', _, reward, done, _) := retro_step R e mask in
      (e', reward, done) :: raw_ticks n' mask e'
  end.

(** The ticks up to and including the first one that signals done. *)
Fixpoint until_done (l : list raw_tick) : list raw_tick :=
  match l with
  | [] => []
  | x :: l' => if tick_done x then [x] else x :: until_done l'
  end.

(** Of [n] requested repetitions, the ticks that are carried out. *)
Definition executed (n : nat) (mask : list Z) (e : Emu R) : list raw_tick :=
  until_done (raw_ticks n mask e).

(** The emulator and the done flag after some ticks, starting from [e]
    with done not signalled. *)
Definition final_em (e : Emu R) (l : list raw_tick) : Emu R :=
  from_option tick_em e (last l).

Definition final_done (l : list raw_tick) : bool :=
  from_option tick_done false (last l).

(** The sum of the rewards of some ticks, added up in order from 0. *)
Definition sum_rewards (l : list raw_tick) : Reward R :=
  foldl (radd R) (rzero R) (map tick_reward l).

(** The frame [env] renders when its emulator is [e]. *)
Definition frame_at (env : t) (e : Emu R) : Frame :=
  [screen_transform R (height env) (width env) (render R e)].

(** The element-wise maximum of the last two of some frames, the frame
    itself when there is one only. *)
Definition max_of_last_two (frames : list Frame) : Frame :=
  match reverse frames with
  | [] => []
  | [f] => f
  | f2 :: f1 :: _ => tensor_max (pmax R) f1 f2
  end.

(** [retro_step(action)]: the step of the base class with a button mask
    as it is; the tuple the base class returns is dropped and the method
    returns [None]. *)
Definition retro_step' (env : t) (action : list Z)
  : t * option (Obs R * Reward R * bool * Info R) :=
  let '(e', _, _, _, _) := retro_step R (em env) action in
  (set_em e' env, None).

(** [n] calls of [retro_step] with one mask, and [n] calls of [reset]. *)
Fixpoint retro_steps (n : nat) (action : list Z) (env : t) : t :=
  match n with
  | O => env
  | S n' => retro_steps n' action (fst (retro_step' env action))
  end.

Fixpoint resets (n : nat) (env : t) : t :=
  match n with
  | O => env
  | S n' => resets n' (fst (reset env))
  end.

(** A caller's use of the adapter: a sequence of [step] and [reset] calls,
    whatever they return or raise. *)
Inductive call : Type :=
| CallStep (action : Z) (frame_skip_arg : option Z)
| CallReset.

Definition run_call (c : call) (env : t) : t :=
  match c with
  | CallStep action frame_skip_arg => fst (step env action frame_skip_arg)
  | CallReset => fst (reset env)
  end.

Fixpoint run_calls (calls : list call) (env : t) : t :=
  match calls with
  | [] => env
  | c :: rest => run_calls rest (run_call c env)
  end.

End Adapter.
End DreamEnv.


(* ===================================================================== *)
(** ** models/dqn_model.py: one optimisation step *)
(* ===================================================================== *)

Module DQN.
Import Py.

(** [Transition = namedtuple('Transition', ('state', 'action', 'next_state', 'reward'))] *)
Record Transition (State Scalar : Type) : Type := {
  state : State;
  action : Z;
  next_state : option State;
  reward : Scalar
}.
Arguments state {_ _} _.
Arguments action {_ _} _.
Arguments next_state {_ _} _.
Arguments reward {_ _} _.

(** [s is not None] *)
Definition is_not_none {A} (s : option A) : bool :=
  match s with
  | Some _ => true
  | None => false
  end.

(** The two networks a tensor's autograd graph can lead back to. *)
Inductive net_id : Type := PolicyNet | TargetNet.

#[global] Instance net_id_eq_dec : EqDecision net_id.
Proof. solve_decision. Defined.

(** torch, the [DQN] network class and [random.sample] are external; the
    floating-point scalars are kept abstract. *)
Record Torch : Type := {
  Scalar : Type;
  State : Type;
  Params : Type;
  Grads : Type;
  OptState : Type;
  Rng : Type;
  fzero : Scalar;
  fadd : Scalar -> Scalar -> Scalar;
  fmul : Scalar -> Scalar -> Scalar;
  fmax : Scalar -> Scalar -> Scalar;
  (** [net(x)] on one row of a batch: the value of every action *)
  forward : Params -> State -> list Scalar;
  (** [F.smooth_l1_loss(input, target)] *)
  smooth_l1_loss : list Scalar -> list Scalar -> Scalar;
  (** the gradient [loss.backward()] leaves on the parameters of one network,
      as a function of everything the loss was computed from *)
  autograd : net_id -> Params -> Params ->
             list (Transition State Scalar) -> Scalar -> Grads;
  gzero : Grads -> Grads;
  gacc : Grads -> Grads -> Grads;
  (** [clamp_(-1, 1)] on every component *)
  gclamp : Grads -> Grads;
  (** [optimizer.step()] on the policy parameters and their gradients *)
  optimizer_step : OptState -> Params -> option Grads -> OptState * Params;
  random_sample : Rng -> list (Transition State Scalar) -> nat ->
                  Rng * list (Transition State Scalar)
}.

Section Model.
Context (T : Torch).

Definition transition : Type := Transition (State T) (Scalar T).

(** A batch tensor together with the networks whose parameters its autograd
    graph reaches; [tape = []] means nothing is tracked. *)
Record tracked : Type := {
  val : list (Scalar T);
  tape : list net_id
}.

Definition untracked (v : list (Scalar T)) : tracked :=
  {| val := v; tape := [] |}.

Definition detach (x : tracked) : tracked :=
  {| val := val x; tape := [] |}.

(** The attributes of a [DQN_Model], with the [.grad] of the parameters. *)
Record t : Type := {
  policy_net : Params T;
  policy_grad : option (Grads T);
  target_net : Params T;
  target_grad : option (Grads T)
}.

(** The global random state, and how often [memory.sample] ran. *)
Record World : Type := {
  rng : Rng T;
  sample_calls : nat
}.

Record ReplayMemory : Type := {
  capacity : nat;
  memory : list transition;
  position : nat
}.

(** Modelled from the spec: [ReplayMemory.__len__] (dreamwarrior.memory), the
    number of transitions currently held. *)
Definition len (m : ReplayMemory) : Z := Z.of_nat (length (memory m)).

(** Modelled from the spec: [ReplayMemory.sample] (dreamwarrior.memory), which
    fails when fewer than [batch_size] transitions are held and otherwise
    draws [batch_size] of them at random. *)
Definition sample (m : ReplayMemory) (batch_size : Z) (w : World)
  : World * result (list transition) :=
  let w1 := {| rng := rng w; sample_calls := S (sample_calls w) |} in
  if ((batch_size <? 0) || (len m <? batch_size))%Z
  then (w1, raise (ValueError "Sample larger than population or is negative"))
  else
    let '(g, l) := random_sample T (rng w1) (memory m) (Z.to_nat batch_size) in
    ({| rng := g; sample_calls := sample_calls w1 |}, ret l).

(** The transposition of the batch into a [Transition] of columns: with no
    transition at all the constructor gets no argument. *)
Definition transpose (transitions : list transition)
  : result (list (State T) * list Z * list (option (State T))
            * list (Scalar T)) :=
  match transitions with
  | [] => raise TypeError
  | _ => ret (map state transitions, map action transitions,
              map next_state transitions, map reward transitions)
  end.

(** [torch.cat] of a list of batch rows. *)
Definition cat_rows {A} (rows : list A) : result (list A) :=
  match rows with
  | [] => raise RuntimeError
  | _ => ret rows
  end.

(** [row.max()] *)
Definition row_max (row : list (Scalar T)) : result (Scalar T) :=
  match row with
  | [] => raise RuntimeError
  | x :: xs => ret (foldl (fmax T) x xs)
  end.


(** [.gather(1, action_batch)]: entry [a] of each row. *)
Definition gather_row (row : list (Scalar T)) (a : Z) : result (Scalar T) :=
  if ((0 <=? a) && (a <? Z.of_nat (length row)))%Z then
    match row !! Z.to_nat a with
    | Some q => ret q
    | None => raise RuntimeError
    end
  else raise RuntimeError.

Fixpoint mapM {A B} (f : A -> result B) (l : list A) : result (list B) :=
  match l with
  | [] => ret []
  | x :: l' => (y <- f x ;; ys <- mapM f l' ;; ret (y :: ys))%py
  end.

Fixpoint zipM {A B C} (f : A -> B -> result C) (l : list A) (k : list B)
  : result (list C) :=
  match l, k with
  | x :: l', y :: k' => (z <- f x y ;; zs <- zipM f l' k' ;; ret (z :: zs))%py
  | _, _ => ret []
  end.

(** [dest[mask] = src]: the entries of [src] go, in order, to the positions
    where [mask] holds. *)
Fixpoint masked_fill (dest : list (Scalar T)) (mask : list bool)
    (src : list (Scalar T)) : list (Scalar T) :=
  match dest, mask with
  | d :: dest', true :: mask' =>
      match src with
      | v :: src' => v :: masked_fill dest' mask' src'
      | [] => d :: masked_fill dest' mask' []
      end
  | d :: dest', false :: mask' => d :: masked_fill dest' mask' src
  | _, _ => dest
  end.

Definition masked_assign (dest : tracked) (mask : list bool) (src : tracked)
  : result tracked :=
  if decide (length mask = length (val dest)) then
    ret {| val := masked_fill (val dest) mask (val src);
           tape := tape dest ++ tape src |}
  else raise IndexError.

(** Lines 65-68: the mask of the non-final states, and those states. *)
Definition non_final_mask (next_states : list (option (State T)))
  : list bool :=
  map is_not_none next_states.

Definition non_final_next_states (next_states : list (option (State T)))
  : result (list (State T)) :=
  cat_rows (omap id next_states).

(** Line 76: [self.policy_net(state_batch).gather(1, action_batch)]. *)
Definition state_action_values (self : t) (state_batch : list (State T))
    (action_batch : list Z) : result tracked :=
  (qs <- zipM (fun s a => gather_row (forward T (policy_net self) s) a)
          state_batch action_batch ;;
   ret {| val := qs; tape := [PolicyNet] |})%py.

(** Lines 83-86: the value of the next states under [target_net], detached,
    and the expected Q values. *)
Definition expected_state_action_values (self : t) (mask : list bool)
    (next_states : list (State T)) (reward_batch : list (Scalar T))
    (batch_size : Z) (gamma : Scalar T) : result tracked :=
  (maxima <- mapM (fun s => row_max (forward T (target_net self) s))
               next_states ;;
   let target_values := detach {| val := maxima; tape := [TargetNet] |} in
   let zeros := untracked (replicate (Z.to_nat batch_size) (fzero T)) in
   next_state_values <- masked_assign zeros mask target_values ;;
   ret {| val := zip_with (fadd T)
                   (map (fun v => fmul T v gamma) (val next_state_values))
                   reward_batch;
          tape := tape next_state_values |})%py.

(** Line 89: the Huber loss of the batch; its graph reaches whatever its two
    arguments reach. *)
Definition huber_loss (input target : tracked) : Scalar T * list net_id :=
  (smooth_l1_loss T (val input) (val target), tape input ++ tape target).

(** [optimizer.zero_grad()]: the optimizer holds the policy parameters. *)
Definition zero_grad (self : t) : t :=
  {| policy_net := policy_net self;
     policy_grad := gzero T <$> policy_grad self;
     target_net := target_net self;
     target_grad := target_grad self |}.

Definition accumulate (old : option (Grads T)) (g : Grads T)
  : option (Grads T) :=
  match old with
  | None => Some g
  | Some o => Some (gacc T o g)
  end.

(** [loss.backward()]: a gradient is left on the parameters of each network
    the graph of the loss reaches, and on no other. *)
Definition backward (loss_tape : list net_id)
    (transitions : list transition) (gamma : Scalar T) (self : t) : t :=
  let g n := autograd T n (policy_net self) (target_net self)
               transitions gamma in
  {| policy_net := policy_net self;
     policy_grad :=
       if bool_decide (PolicyNet ∈ loss_tape)
       then accumulate (policy_grad self) (g PolicyNet)
       else policy_grad self;
     target_net := target_net self;
     target_grad :=
       if bool_decide (TargetNet ∈ loss_tape)
       then accumulate (target_grad self) (g TargetNet)
       else target_grad self |}.

(** Lines 94-95: [param.grad.data.clamp_(-1, 1)] for the policy parameters;
    a parameter without gradient has [grad = None]. *)
Definition clamp_grads (self : t) : result t :=
  match policy_grad self with
  | None => raise (AttributeError "'NoneType' object has no attribute 'data'")
  | Some g =>
      ret {| policy_net := policy_net self;
             policy_grad := Some (gclamp T g);
             target_net := target_net self;
             target_grad := target_grad self |}
  end.

(** The end of an optimisation step: the objects it mutated, the local
    variable [loss] of line 89, and the value of the call ([None] where
    Python returns nothing). *)
Record outcome : Type := {
  out_self : t;
  out_optimizer : OptState T;
  out_loss : Scalar T;
  out_value : option (Scalar T)
}.

(** Lines 61-96, on the sampled transitions. The function has no [return]
    after the optimizer step. *)
Definition optimize_batch (self : t) (optimizer : OptState T)
    (transitions : list transition) (batch_size : Z) (gamma : Scalar T)
  : result outcome :=
  (batch <- transpose transitions ;;
   let '(states, actions, next_states, rewards) := batch in
   let mask := non_final_mask next_states in
   nfns <- non_final_next_states next_states ;;
   q <- state_action_values self states actions ;;
   expected <- expected_state_action_values self mask nfns rewards
                 batch_size gamma ;;
   let '(loss, loss_tape) := huber_loss q expected in
   let self1 := zero_grad self in
   let self2 := backward loss_tape transitions gamma self1 in
   self3 <- clamp_grads self2 ;;
   let '(optimizer', params') :=
     optimizer_step T optimizer (policy_net self3) (policy_grad self3) in
   ret {| out_self := {| policy_net := params';
                         policy_grad := policy_grad self3;
                         target_net := target_net self3;
                         target_grad := target_grad self3 |};
          out_optimizer := optimizer';
          out_loss := loss;
          out_value := None |})%py.

(** [optimize_model(self, optimizer, memory, batch_size, gamma)]: the
    objects it mutated and the value of the call. *)
Definition optimize_model (self : t) (optimizer : OptState T)
    (memory_arg : ReplayMemory) (batch_size : Z) (gamma : Scalar T)
    (w : World)
  : World * result (t * OptState T * option (Scalar T)) :=
  if (len memory_arg <? batch_size)%Z then
    (w, ret (self, optimizer, None))
  else
    let '(w1, r) := sample memory_arg batch_size w in
    (w1,
     (transitions <- r ;;
      o <- optimize_batch self optimizer transitions batch_size gamma ;;
      ret (out_self o, out_optimizer o, out_value o))%py).

End Model.

(** *** [DQN_Model.train] *)

(** What [train] uses besides [optimize_model]: the environment (a raw
    retro environment stepped with 9-entry masks), [get_screen], the [DQN]
    network constructor, RMSprop, Python floats and the random module. *)
Record Gym (T : Torch) : Type := {
  Env : Type;
  env_reset : Env -> Env;
  env_step : Env -> list Z -> Env * Scalar T * bool;
  env_close : Env -> Env;
  n_actions : Env -> Z;
  get_screen : Env -> State T;
  screen_shape : State T -> Z * Z;
  screen_sub : State T -> State T -> State T;
  (** [DQN(screen_height, screen_width, n_actions)], randomly initialised *)
  new_network : Rng T -> Z -> Z -> Z -> Rng T * Params T;
  new_optimizer : Params T -> OptState T;
  (** [self.policy_net(state).max(1)[1]] on the row of action values *)
  argmax : list (Scalar T) -> Z;
  random : Rng T -> Rng T * Scalar T;
  (** [random.randrange(n)]; it raises for [n <= 0] *)
  randrange : Rng T -> Z -> Rng T * result Z;
  gamma_lit : Scalar T;
  eps_start : Scalar T;
  eps_end : Scalar T;
  minus_one : Scalar T;
  of_int : Z -> Scalar T;
  fsub : Scalar T -> Scalar T -> Scalar T;
  fdiv : Scalar T -> Scalar T -> Scalar T;
  fexp : Scalar T -> Scalar T;
  fgt : Scalar T -> Scalar T -> bool
}.
Arguments Env {T} _.
Arguments env_reset {T} _ _.
Arguments env_step {T} _ _ _.
Arguments env_close {T} _ _.
Arguments n_actions {T} _ _.
Arguments get_screen {T} _ _.
Arguments screen_shape {T} _ _.
Arguments screen_sub {T} _ _ _.
Arguments new_network {T} _ _ _ _ _.
Arguments new_optimizer {T} _ _.
Arguments argmax {T} _ _.
Arguments random {T} _ _.
Arguments randrange {T} _ _ _.
Arguments gamma_lit {T} _.
Arguments eps_start {T} _.
Arguments eps_end {T} _.
Arguments minus_one {T} _.
Arguments of_int {T} _ _.
Arguments fsub {T} _ _ _.
Arguments fdiv {T} _ _ _.
Arguments fexp {T} _ _.
Arguments fgt {T} _ _ _.

Section Train.
Context (T : Torch) (G : Gym T).

Definition batch_size : Z := 128.
Definition eps_decay : Z := 200.
Definition target_update : Z := 10.
Definition num_episodes : nat := 50.

(** Modelled from the spec: [ReplayMemory.push] (dreamwarrior.utils), an
    insert at the write position, which then advances modulo the capacity;
    until the memory is full the write position is its end. *)
Definition push (m : ReplayMemory T) (tr : transition T) : ReplayMemory T :=
  let grown :=
    if decide (length (memory T m) < capacity T m)
    then memory T m ++ [tr] else memory T m in
  {| capacity := capacity T m;
     memory := <[position T m := tr]> grown;
     position := (S (position T m)) mod (capacity T m) |}.

(** The local variables of [train] that the loops change. After the last
    iteration of an episode Python's [state] is [None]; it is not read again
    before the next episode assigns it, and [loop_state] keeps the value it
    had. *)
Record train_vars : Type := {
  tv_self : t T;
  tv_env : Env G;
  tv_optimizer : OptState T;
  tv_memory : ReplayMemory T;
  tv_world : World T;
  tv_steps_done : Z;
  tv_episode_durations : list Z;
  tv_last_screen : State T;
  tv_current_screen : State T;
  tv_state : State T
}.

(** [eps_end + (eps_start - eps_end) * math.exp(-1. * steps_done / eps_decay)] *)
Definition train_eps_threshold (steps_done : Z) : Scalar T :=
  fadd T (eps_end G)
    (fmul T (fsub G (eps_start G) (eps_end G))
       (fexp G (fdiv G (fmul T (minus_one G) (of_int G steps_done))
                  (of_int G eps_decay)))).

(** Lines 141-182: one iteration of [for t in count()], and whether it ends
    in [break]. [env.render()] changes nothing here. *)
Definition train_body (n : Z) (t_ : Z) (v : train_vars)
  : result (train_vars * bool) :=
  (let '(g1, sample_) := random G (rng T (tv_world v)) in
   let threshold := train_eps_threshold (tv_steps_done v) in
   let steps_done := (tv_steps_done v + 1)%Z in
   chosen <-
     (if fgt G sample_ threshold then
        ret (g1, argmax G (forward T (policy_net T (tv_self v)) (tv_state v)))
      else
        let '(g2, r) := randrange G g1 n in
        (a <- r ;; ret (g2, a))) ;;
   let '(g, action_) := chosen in
   retro_action <- zeros_set_one 9 action_ ;;
   let '(env1, reward_, done) := env_step G (tv_env v) retro_action in
   let last := tv_current_screen v in
   let current := get_screen G env1 in
   let next :=
     if negb done then Some (screen_sub G current last) else None in
   let memory1 :=
     push (tv_memory v)
       {| state := tv_state v; action := action_;
          next_state := next; reward := reward_ |} in
   let state1 := match next with Some s => s | None => tv_state v end in
   let '(w1, r) :=
     optimize_model T (tv_self v) (tv_optimizer v) memory1 batch_size
       (gamma_lit G)
       {| rng := g; sample_calls := sample_calls T (tv_world v) |} in
   out <- r ;;
   let '(self1, optimizer1, _) := out in
   ret ({| tv_self := self1; tv_env := env1; tv_optimizer := optimizer1;
           tv_memory := memory1; tv_world := w1;
           tv_steps_done := steps_done;
           tv_episode_durations :=
             if done then tv_episode_durations v ++ [(t_ + 1)%Z]
             else tv_episode_durations v;
           tv_last_screen := last; tv_current_screen := current;
           tv_state := state1 |},
        done))%py.

(** The loop [for t in count()] for at most [fuel] iterations from [t_]; the
    flag tells whether it was left by [break]. *)
Fixpoint train_loop (fuel : nat) (n : Z) (t_ : Z) (v : train_vars)
  : result (train_vars * bool) :=
  match fuel with
  | O => ret (v, false)
  | S fuel' =>
      (r <- train_body n t_ v ;;
       if snd r then ret (fst r, true)
       else train_loop fuel' n (t_ + 1)%Z (fst r))%py
  end.

(** [self.target_net.load_state_dict(self.policy_net.state_dict())] *)
Definition load_policy_into_target (self : t T) : t T :=
  {| policy_net := policy_net T self; policy_grad := policy_grad T self;
     target_net := policy_net T self; target_grad := target_grad T self |}.

(** Lines 135-187: the body of [for i_episode in range(num_episodes)]. *)
Definition train_episode (fuel : nat) (n : Z) (i_episode : Z)
    (v : train_vars) : result (train_vars * bool) :=
  (let env1 := env_reset G (tv_env v) in
   let last := get_screen G env1 in
   let current := get_screen G env1 in
   let v0 :=
     {| tv_self := tv_self v; tv_env := env1;
        tv_optimizer := tv_optimizer v; tv_memory := tv_memory v;
        tv_world := tv_world v; tv_steps_done := tv_steps_done v;
        tv_episode_durations := tv_episode_durations v;
        tv_last_screen := last; tv_current_screen := current;
        tv_state := screen_sub G current last |} in
   r <- train_loop fuel n 0 v0 ;;
   let '(v1, broke) := r in
   if broke then
     let self1 :=
       if (i_episode mod target_update =? 0)%Z
       then load_policy_into_target (tv_self v1) else tv_self v1 in
     ret ({| tv_self := self1; tv_env := tv_env v1;
             tv_optimizer := tv_optimizer v1; tv_memory := tv_memory v1;
             tv_world := tv_world v1; tv_steps_done := tv_steps_done v1;
             tv_episode_durations := tv_episode_durations v1;
             tv_last_screen := tv_last_screen v1;
             tv_current_screen := tv_current_screen v1;
             tv_state := tv_state v1 |}, true)
   else ret (v1, false))%py.

(** The episodes [i_episode, i_episode + 1, ...], [count] of them, each with
    [fuel] iterations at most; the flag tells whether all of them ended. *)
Fixpoint train_episodes (fuel : nat) (n : Z) (count : nat) (i_episode : Z)
    (v : train_vars) : result (train_vars * bool) :=
  match count with
  | O => ret (v, true)
  | S count' =>
      (r <- train_episode fuel n i_episode v ;;
       if snd r
       then train_episodes fuel n count' (i_episode + 1)%Z (fst r)
       else ret (fst r, false))%py
  end.

(** [train(self)]: lines 99-131 set the objects up, the episodes follow,
    and [env.close()] ends it. The screens and the state are assigned at the
    start of the first episode; until then the record holds the first
    screen. *)
Definition train (fuel : nat) (env : Env G) (w : World T)
  : result (train_vars * bool) :=
  (let env0 := env_reset G env in
   let init_screen := get_screen G env0 in
   let '(screen_height, screen_width) := screen_shape G init_screen in
   let n := n_actions G env0 in
   let '(g1, policy) :=
     new_network G (rng T w) screen_height screen_width n in
   let '(g2, target) := new_network G g1 screen_height screen_width n in
   let self0 :=
     load_policy_into_target
       {| policy_net := policy; policy_grad := None;
          target_net := target; target_grad := None |} in
   let v0 :=
     {| tv_self := self0; tv_env := env0;
        tv_optimizer := new_optimizer G (policy_net T self0);
        tv_memory :=
          {| capacity := Z.to_nat 10000; memory := []; position := 0 |};
        tv_world := {| rng := g2; sample_calls := sample_calls T w |};
        tv_steps_done := 0; tv_episode_durations := [];
        tv_last_screen := init_screen; tv_current_screen := init_screen;
        tv_state := init_screen |} in
   r <- train_episodes fuel n num_episodes 0 v0 ;;
   let '(v1, finished) := r in
   if finished then
     ret ({| tv_self := tv_self v1; tv_env := env_close G (tv_env v1);
             tv_optimizer := tv_optimizer v1; tv_memory := tv_memory v1;
             tv_world := tv_world v1; tv_steps_done := tv_steps_done v1;
             tv_episode_durations := tv_episode_durations v1;
             tv_last_screen := tv_last_screen v1;
             tv_current_screen := tv_current_screen v1;
             tv_state := tv_state v1 |}, true)
   else ret (v1, false))%py.

End Train.
End DQN.


(* ===================================================================== *)
(** ** trainers/dqn_trainer.py: epsilon-greedy action selection and the
       episode loop *)
(* ===================================================================== *)

Module Trainer.
Import Py.

Definition BATCH_SIZE : Z := 32.
Definition EPS_DECAY : Z := 200.
Definition NUM_EPISODES : Z := 100.
Definition FRAME_SKIP : Z := 4.

(** Python floats, the random module, the environment, [DQNAgent] and
    [ReplayMemory] as the trainer uses them. *)
Record Runtime : Type := {
  F : Type;
  GAMMA : F;
  EPS_START : F;
  EPS_END : F;
  minus_one : F;
  of_int : Z -> F;
  fadd : F -> F -> F;
  fsub : F -> F -> F;
  fmul : F -> F -> F;
  fdiv : F -> F -> F;
  fexp : F -> F;
  fgt : F -> F -> bool;
  Rng : Type;
  random : Rng -> Rng * F;
  State : Type;
  Screen : Type;
  Action : Type;
  Env : Type;
  Agent : Type;
  Memory : Type;
  Optimizer : Type;
  action_item : Action -> Z;
  select_action : Agent -> option State -> Action;
  random_action : Agent -> Rng -> Rng * Action;
  env_reset : Env -> Env;
  env_step : Env -> list Z -> Env * F * bool;
  get_screen : Env -> Screen;
  screen_sub : Screen -> Screen -> State;
  push : Memory -> option State -> Action -> option State -> F -> Memory;
  agent_optimize_model :
    Agent -> Optimizer -> Memory -> Z -> F -> Rng -> Agent * Optimizer * Rng
}.

Section Loop.
Context (P : Runtime).

(** The trainer with the global random state; [decisions] records, for each
    call of [training_select_action], the [steps_done] it was given. *)
Record t : Type := {
  agent : Agent P;
  rng : Rng P;
  decisions : list Z
}.

(** [EPS_END + (EPS_START - EPS_END) * math.exp(-1. * steps_done / EPS_DECAY)] *)
Definition eps_threshold (steps_done : Z) : F P :=
  fadd P (EPS_END P)
    (fmul P (fsub P (EPS_START P) (EPS_END P))
       (fexp P (fdiv P (fmul P (minus_one P) (of_int P steps_done))
                  (of_int P EPS_DECAY)))).

(** [training_select_action(self, state, steps_done)]: [steps_done] is a
    parameter, an integer; [steps_done += 1] rebinds the local name, and
    the function returns the action alone. *)
Definition training_select_action (self : t) (state : option (State P))
    (steps_done : Z) : t * Action P :=
  let self0 := {| agent := agent self; rng := rng self;
                  decisions := decisions self ++ [steps_done] |} in
  let '(g, sample) := random P (rng self0) in
  let threshold := eps_threshold steps_done in
  let steps_done := (steps_done + 1)%Z in
  if fgt P sample threshold then
    ({| agent := agent self0; rng := g; decisions := decisions self0 |},
     select_action P (agent self0) state)
  else
    let '(g', a) := random_action P (agent self0) g in
    ({| agent := agent self0; rng := g'; decisions := decisions self0 |}, a).

(** The local variables of [train]. *)
Record vars : Type := {
  self : t;
  env : Env P;
  memory : Memory P;
  optimizer : Optimizer P;
  steps_done : Z;
  episode_reward : F P;
  last_screen : Screen P;
  current_screen : Screen P;
  state : option (State P);
  previous_action : Action P
}.

(** Lines 111-116: the start of an episode. *)
Definition episode_start (v : vars) : vars :=
  let env1 := env_reset P (env v) in
  let last := get_screen P env1 in
  let current := get_screen P env1 in
  let state0 := Some (screen_sub P current last) in
  let '(self1, a) := training_select_action (self v) state0 (steps_done v) in
  {| self := self1; env := env1; memory := memory v;
     optimizer := optimizer v; steps_done := steps_done v;
     episode_reward := of_int P 0;
     last_screen := last; current_screen := current;
     state := state0; previous_action := a |}.

(** Lines 119-164: one iteration of [for t in count()], and whether it ends
    in [break]. Logging and rendering for a watcher are left out. *)
Definition loop_body (t_ : Z) (v : vars) : result (vars * bool) :=
  (let '(self1, action, previous) :=
     if (t_ mod FRAME_SKIP =? 0)%Z then
       let '(s1, a) :=
         training_select_action (self v) (state v) (steps_done v) in
       (s1, a, a)
     else (self v, previous_action v, previous_action v) in
   retro_action <- zeros_set_one 9 (action_item P action) ;;
   let '(env1, reward, done) := env_step P (env v) retro_action in
   let total := fadd P (episode_reward v) reward in
   let last := current_screen v in
   let current := get_screen P env1 in
   let next_state :=
     if negb done then Some (screen_sub P current last) else None in
   let memory1 := push P (memory v) (state v) action next_state reward in
   let '(agent1, optimizer1, g) :=
     agent_optimize_model P (agent self1) (optimizer v) memory1
       BATCH_SIZE (GAMMA P) (rng self1) in
   ret ({| self := {| agent := agent1; rng := g;
                      decisions := decisions self1 |};
           env := env1; memory := memory1; optimizer := optimizer1;
           steps_done := steps_done v; episode_reward := total;
           last_screen := last; current_screen := current;
           state := next_state; previous_action := previous |},
        done))%py.

(** [for t in count(): ...; if done: break], run for at most [fuel]
    iterations from [t_]; the flag tells whether the loop was left. *)
Fixpoint episode_loop (fuel : nat) (t_ : Z) (v : vars)
  : result (vars * bool) :=
  match fuel with
  | O => ret (v, false)
  | S fuel' =>
      (r <- loop_body t_ v ;;
       if snd r then ret (fst r, true)
       else episode_loop fuel' (t_ + 1)%Z (fst r))%py
  end.

Definition run_episode (fuel : nat) (v : vars) : result (vars * bool) :=
  episode_loop fuel 0 (episode_start v).

End Loop.

(** *** [train] around the episode loop *)

(** The attributes a [DQNTrainer] object has: those of the class body, its
    methods, and [n_actions], which [train] sets. *)
Definition attributes : list string :=
  ["device"; "env"; "agent"; "get_screen"; "training_select_action";
   "train"; "run"; "n_actions"]%string.

(** [self.<name>]: an attribute the object does not have is an
    AttributeError. *)
Definition getattr (name : string) : result unit :=
  if bool_decide (name ∈ attributes) then ret tt
  else raise (AttributeError name).

(** What [train] sets up before the first episode, on the agent and the
    optimizer. *)
Record Setup (P : Runtime) : Type := {
  (** [agent.target_net.load_state_dict(agent.policy_net.state_dict())] and
      [agent.target_net.eval()] *)
  sync_target : Agent P -> Agent P;
  (** [optim.RMSprop(agent.policy_net.parameters())], with the state of an
      earlier run loaded when one is given *)
  new_optimizer : Agent P -> option (Optimizer P) -> Optimizer P;
  (** [ReplayMemory(10000)] *)
  new_memory : Memory P;
  env_close : Env P -> Env P;
  (** [self.training_save(i_episode, optimizer)] *)
  training_save : t P -> Z -> Optimizer P -> t P
}.
Arguments sync_target {P} _ _.
Arguments new_optimizer {P} _ _ _.
Arguments new_memory {P} _.
Arguments env_close {P} _ _.
Arguments training_save {P} _ _ _ _.

Section Train.
Context (P : Runtime) (U : Setup P).

(** Lines 109-172: the episodes [i_episode, i_episode + 1, ...], [count] of
    them, each with at most [fuel] iterations of the inner loop. After the
    inner loop line 167 reads [self.target_net] and [self.policy_net], and
    line 172 [self.training_save]. The result carries [episode_rewards] and
    whether all the episodes ended. *)
Fixpoint train_episodes (fuel : nat) (count : nat) (i_episode : Z)
    (v : vars P) (episode_rewards : list (F P))
  : result (vars P * list (F P) * bool) :=
  match count with
  | O => ret (v, episode_rewards, true)
  | S count' =>
      (r <- run_episode P fuel v ;;
       let '(v1, broke) := r in
       if broke then
         (_ <- getattr "target_net" ;;
          _ <- getattr "policy_net" ;;
          let rewards1 := episode_rewards ++ [episode_reward P v1] in
          _ <- getattr "training_save" ;;
          let self1 := training_save U (self P v1) i_episode
                         (optimizer P v1) in
          train_episodes fuel count' (i_episode + 1)%Z
            {| self := self1; env := env P v1; memory := memory P v1;
               optimizer := optimizer P v1;
               steps_done := steps_done P v1;
               episode_reward := episode_reward P v1;
               last_screen := last_screen P v1;
               current_screen := current_screen P v1;
               state := state P v1;
               previous_action := previous_action P v1 |}
            rewards1)
       else ret (v1, episode_rewards, false))%py
  end.

(** [train(self, optimizer_state=None, start_episode=0, watching=False)]
    for a trainer [self_] on the environment [env_]; [a0] stands for the
    action variables before the first episode assigns them. *)
Definition train (fuel : nat) (self_ : t P) (env_ : Env P)
    (optimizer_state : option (Optimizer P)) (start_episode : Z)
    (a0 : Action P)
  : result (vars P * list (F P) * bool) :=
  (let init_screen := get_screen P env_ in
   let agent1 := sync_target U (agent P self_) in
   let optimizer0 := new_optimizer U agent1 optimizer_state in
   let v0 :=
     {| self := {| agent := agent1; rng := rng P self_;
                   decisions := decisions P self_ |};
        env := env_; memory := new_memory U; optimizer := optimizer0;
        steps_done := 0; episode_reward := of_int P 0;
        last_screen := init_screen; current_screen := init_screen;
        state := None; previous_action := a0 |} in
   r <- train_episodes fuel
          (Z.to_nat (NUM_EPISODES - start_episode)) start_episode v0 [] ;;
   let '(v1, rewards, finished) := r in
   if finished then
     ret ({| self := self P v1; env := env_close U (env P v1);
             memory := memory P v1; optimizer := optimizer P v1;
             steps_done := steps_done P v1;
             episode_reward := episode_reward P v1;
             last_screen := last_screen P v1;
             current_screen := current_screen P v1;
             state := state P v1;
             previous_action := previous_action P v1 |}, rewards, true)
   else ret (v1, rewards, false))%py.

End Train.
End Trainer.

(* ===================================================================== *)
(** ** nn/noisynet_dqn.py: the shapes of [NoisyNetDQN] *)
(* ===================================================================== *)

(** The weights are floating-point tensors and the [Noisy] layer is not
    among the sources; what the module fixes on its own is the shape of every
    tensor, and that is what is embedded: a tensor is its shape. The layer
    constructors are taken to accept positive sizes. *)
Module NoisyNetDQN.
Import Py.

Definition shape : Type := list Z.

Definition numel (x : shape) : Z := foldr Z.mul 1%Z x.

(** One spatial extent through a convolution without padding: a kernel
    larger than the input is an error. *)
Definition conv_extent (kernel_size stride : Z) (size : Z) : result Z :=
  if (size <? kernel_size)%Z then raise RuntimeError
  else ret ((size - kernel_size) / stride + 1)%Z.

(** [nn.Conv2d(in_channels, out_channels, kernel_size, stride)] on a batch
    [B, C, H, W]. *)
Definition conv2d (in_channels out_channels kernel_size stride : Z)
    (x : shape) : result shape :=
  match x with
  | [b; c; h; w] =>
      if (c =? in_channels)%Z then
        (h' <- conv_extent kernel_size stride h ;;
         w' <- conv_extent kernel_size stride w ;;
         ret [b; out_channels; h'; w'])%py
      else raise RuntimeError
  | _ => raise RuntimeError
  end.

(** [self.features]: three convolutions, each followed by a ReLU, which
    keeps the shape. *)
Definition features (in_channels : Z) (x : shape) : result shape :=
  (x1 <- conv2d in_channels 32 8 4 x ;;
   x2 <- conv2d 32 64 4 2 x1 ;;
   conv2d 64 64 3 1 x2)%py.

(** [x.view(d, -1)] and the like: the extent that [-1] stands for, given
    the product of the other extents. *)
Definition view_infer (x : shape) (known : Z) : result Z :=
  if (known =? 0)%Z then raise RuntimeError
  else if (numel x mod known =? 0)%Z then ret (numel x / known)%Z
  else raise RuntimeError.

(** Modelled from the spec: [Noisy(in_features, out_features)]
    (dreamwarrior.nn), which in the forward pass behaves as an ordinary
    linear transform. *)
Definition noisy (in_features out_features : Z) (x : shape) : result shape :=
  match x with
  | [b; f] =>
      if (f =? in_features)%Z then ret [b; out_features]
      else raise RuntimeError
  | _ => raise RuntimeError
  end.

Record t : Type := {
  input_shape : Z * Z * Z;
  num_actions : Z;
  num_atoms : Z;
  feature_size : Z
}.

(** [__init__(input_shape, num_actions, num_atoms=1)]: the feature size is
    read off a forward pass of [torch.zeros(1, *input_shape)]. *)
Definition init (input_shape_arg : Z * Z * Z) (num_actions_arg : Z)
    (num_atoms_arg : Z) : result t :=
  (let '(c, h, w) := input_shape_arg in
   let zeros := [1; c; h; w]%Z in
   out <- features c zeros ;;
   flat <- view_infer out 1 ;;
   ret {| input_shape := input_shape_arg;
          num_actions := num_actions_arg;
          num_atoms := num_atoms_arg;
          feature_size := flat |})%py.

(** [forward(x)] *)
Definition forward (self : t) (x : shape) : result shape :=
  (x1 <- features (fst (fst (input_shape self))) x ;;
   b <- match x1 with
        | b :: _ => ret b
        | [] => raise IndexError
        end ;;
   f <- view_infer x1 b ;;
   x2 <- noisy (feature_size self) 512 [b; f] ;;
   x3 <- noisy 512 (num_actions self * num_atoms self) x2 ;;
   if (1 <? num_atoms self)%Z then
     (rows <- view_infer x3 (num_atoms self) ;;
      let x4 := [rows; num_atoms self] in
      batch <- view_infer x4 (num_actions self * num_atoms self) ;;
      ret [batch; num_actions self; num_atoms self])
   else ret x3)%py.

End NoisyNetDQN.

(* ===================================================================== *)
(** ** [get_screen], the same method in [DQN_Model] and [DQNTrainer] *)
(* ===================================================================== *)

Module Screen.

Section GetScreen.
Context {Px F : Type} (div255 : Px -> F).

(** The render, [H] rows of [W] pixels of [C] channel values, and a float
    tensor of shape [C, H, W]. *)
Definition image : Type := list (list (list Px)).
Definition chw : Type := list (list (list F)).

(** [a.transpose((2, 0, 1))] of an array with [channels] channels: entry
    [c][h][w] of the result is entry [h][w][c] of [a]. *)
Definition transpose_201 (channels : nat) (a : image) : image :=
  map (fun c => map (fun row => omap (fun px => px !! c) row) a)
    (seq 0 channels).

(** [get_screen]: transpose, convert to float and divide by 255, add the
    batch dimension. The [transforms.Compose] of line 45 is built and never
    called; its value is dropped. *)
Definition get_screen (channels : nat) (render : image) : list chw :=
  let screen := transpose_201 channels render in
  let screen := map (map (map div255)) screen in
  [screen].

End GetScreen.

(** [a[i][j][k]], where it exists. *)
Definition at3 {A} (a : list (list (list A))) (i j k : nat) : option A :=
  match a !! i with
  | Some plane =>
      match plane !! j with
      | Some row => row !! k
      | None => None
      end
  | None => None
  end.

End Screen.

(* ===================================================================== *)
(** ** Small concrete collaborators, for running the definitions *)
(* ===================================================================== *)

Module Toy.
Import Py.

(** An emulator that counts its ticks: tick [k] pays reward [k], the episode
    is over after the third tick, and the screen shows the counter as the two
    pixels [k] and [10 - k]. Its state also logs every button mask it was
    stepped with. *)
Definition retro : RetroEnv :=
  {| Emu := Z * list (list Z);
     Screen := Z;
     Pixel := Z;
     Reward := Z;
     Info := string;
     Obs := Z;
     rzero := 0%Z;
     radd := Z.add;
     pmax := Z.max;
     retro_step := fun e mask =>
       let k := (fst e + 1)%Z in
       ((k, snd e ++ [mask]), k, k, (3 <=? k)%Z, "tick"%string);
     render := fun e => fst e;
     screen_transform := fun _ _ s => [s; (10 - s)%Z];
     em_set_state := fun e => (0%Z, snd e);
     em_set_button_mask := fun _ _ e => e;
     em_step := fun e => e;
     record_movie := fun _ _ _ e => e;
     movie_step := fun e => e;
     data_reset := fun e => e;
     data_update_ram := fun e => e;
     update_obs := fun e => (e, fst e) |}.

Definition config (skip : Z) : DreamEnv.Config :=
  {| DreamEnv.cfg_frame_skip := skip;
     DreamEnv.cfg_height := 1;
     DreamEnv.cfg_width := 2 |}.

(** The button names of two consoles: the NES list has an unused slot. *)
Definition nes_buttons : list (option string) :=
  [Some "B"; None; Some "SELECT"; Some "START"; Some "UP"; Some "DOWN";
   Some "LEFT"; Some "RIGHT"; Some "A"]%string.

Definition genesis_buttons : list (option string) :=
  [Some "B"; Some "A"; Some "MODE"; Some "START"; Some "UP"; Some "DOWN";
   Some "LEFT"; Some "RIGHT"; Some "C"; Some "Y"; Some "X"; Some "Z"]%string.

Definition actions : list (option string) :=
  [Some "LEFT"; Some "RIGHT"; Some "A"]%string.

(** A NES game and a Genesis game with the same custom action list, built by
    [__init__] with frame skip [skip]; [movie] is the recording directory. *)
Definition nes_env (skip : Z) (movie : option string) : DreamEnv.t retro :=
  DreamEnv.init retro (config skip) nes_buttons (length nes_buttons)
    (Some actions) (Some "nes"%string) false true 1 movie (0%Z, []).

Definition genesis_env (skip : Z) : DreamEnv.t retro :=
  DreamEnv.init retro (config skip) genesis_buttons (length genesis_buttons)
    (Some actions) None false true 1 None (0%Z, []).

(** Integer scalars and a two-action network [q(s) = (p + s, p * s)]. *)
Definition torch : DQN.Torch :=
  {| DQN.Scalar := Z;
     DQN.State := Z;
     DQN.Params := Z;
     DQN.Grads := Z;
     DQN.OptState := nat;
     DQN.Rng := nat;
     DQN.fzero := 0%Z;
     DQN.fadd := Z.add;
     DQN.fmul := Z.mul;
     DQN.fmax := Z.max;
     DQN.forward := fun p s => [(p + s)%Z; (p * s)%Z];
     DQN.smooth_l1_loss := fun xs ys =>
       foldr Z.add 0%Z (zip_with (fun x y => Z.abs (x - y)) xs ys);
     DQN.autograd := fun _ _ _ _ _ => 5%Z;
     DQN.gzero := fun _ => 0%Z;
     DQN.gacc := Z.add;
     DQN.gclamp := fun g => Z.max (-1) (Z.min 1 g);
     DQN.optimizer_step := fun o p g => (S o, (p - default 0 g)%Z);
     DQN.random_sample := fun g l n => (S g, take n l) |}.

Definition tr (s a : Z) (s' : option Z) (r : Z) : DQN.transition torch :=
  DQN.Build_Transition Z Z s a s' r.

Definition model : DQN.t torch :=
  DQN.Build_t torch 2%Z None 3%Z None.

Definition world : DQN.World torch :=
  DQN.Build_World torch 0 0.

Definition replay (l : list (DQN.transition torch)) : DQN.ReplayMemory torch :=
  DQN.Build_ReplayMemory torch 100 l (length l).

Definition two_transitions : list (DQN.transition torch) :=
  [tr 1 0 (Some 2%Z) 1; tr 2 1 None 7].

(** A trainer whose environment ends the episode on its sixth step, with
    integers for floats. *)
Definition runtime : Trainer.Runtime :=
  {| Trainer.F := Z;
     Trainer.GAMMA := 1%Z;
     Trainer.EPS_START := 90%Z;
     Trainer.EPS_END := 5%Z;
     Trainer.minus_one := (-1)%Z;
     Trainer.of_int := fun z => z;
     Trainer.fadd := Z.add;
     Trainer.fsub := Z.sub;
     Trainer.fmul := Z.mul;
     Trainer.fdiv := Z.div;
     Trainer.fexp := fun x => x;
     Trainer.fgt := Z.gtb;
     Trainer.Rng := Z;
     Trainer.random := fun g => ((g + 1)%Z, g);
     Trainer.State := Z;
     Trainer.Screen := Z;
     Trainer.Action := Z;
     Trainer.Env := Z;
     Trainer.Agent := unit;
     Trainer.Memory := nat;
     Trainer.Optimizer := unit;
     Trainer.action_item := fun a => a;
     Trainer.select_action := fun _ _ => 0%Z;
     Trainer.random_action := fun _ g => ((g + 1)%Z, (g mod 9)%Z);
     Trainer.env_reset := fun _ => 0%Z;
     Trainer.env_step := fun e _ => ((e + 1)%Z, 1%Z, (6 <=? e + 1)%Z);
     Trainer.get_screen := fun e => e;
     Trainer.screen_sub := Z.sub;
     Trainer.push := fun m _ _ _ _ => S m;
     Trainer.agent_optimize_model := fun a o _ _ _ g => (a, o, g) |}.

Definition trainer : Trainer.t runtime :=
  Trainer.Build_t runtime tt 0%Z [].

(** The locals of [train] on entry to the first episode: [steps_done = 0]. *)
Definition train_start : Trainer.vars runtime :=
  Trainer.Build_vars runtime trainer 0%Z 0 tt 0%Z 0%Z 0%Z 0%Z None 0%Z.

(** A toy environment for [DQN_Model.train]: every episode ends on its
    third step. *)
Definition gym : DQN.Gym torch :=
  DQN.Build_Gym torch
    (* Env *) Z
    (* env_reset *) (fun _ => 0%Z)
    (* env_step *) (fun e _ => ((e + 1)%Z, 1%Z, (3 <=? e + 1)%Z))
    (* env_close *) (fun e => e)
    (* n_actions *) (fun _ => 2%Z)
    (* get_screen *) (fun e => e)
    (* screen_shape *) (fun _ => (40%Z, 60%Z))
    (* screen_sub *) Z.sub
    (* new_network *) (fun g _ _ _ => (S g, Z.of_nat g))
    (* new_optimizer *) (fun _ => 0)
    (* argmax *)
    (fun row =>
       match row with
       | [a; b] => if (a <? b)%Z then 1%Z else 0%Z
       | _ => 0%Z
       end)
    (* random *) (fun g => (S g, Z.of_nat g))
    (* randrange *)
    (fun g n =>
       (S g, if (n <=? 0)%Z then inl (ValueError "empty range")
             else inr (Z.of_nat g mod n)%Z))
    (* gamma, eps_start, eps_end, -1. *) 1%Z 90%Z 5%Z (-1)%Z
    (* of_int *) (fun z => z)
    (* fsub, fdiv *) Z.sub Z.div
    (* fexp *) (fun x => x)
    (* fgt *) Z.gtb.

Definition setup : Trainer.Setup runtime :=
  Trainer.Build_Setup runtime (fun a => a) (fun _ _ => tt) 0 (fun e => e)
    (fun s _ _ => s).

End Toy.


(* ===================================================================== *)
(** ** Facts about the Python primitives *)
(* ===================================================================== *)

Section PyFacts.
Import Py.

Lemma index_Some {A} `{EqDecision A} (x : A) (l : list A) (k : nat) :
  index x l = Some k ->
  l !! k = Some x /\ forall j, j < k -> l !! j <> Some x.
Proof.
  revert k. induction l as [|y l IH]; intros k; simpl; [done|].
  destruct (decide (x = y)) as [->|Hne].
  - intros [= <-]. split; [done|]. intros j Hj. lia.
  - destruct (index x l) as [k'|] eqn:E; simpl; [|done].
    intros [= <-]. destruct (IH k' eq_refl) as [Hk Hlt].
    split; [done|]. intros [|j] Hj; simpl.
    + congruence.
    + apply Hlt. lia.
Qed.

Lemma index_elem_of {A} `{EqDecision A} (x : A) (l : list A) :
  x ∈ l -> exists k, index x l = Some k /\ k < length l.
Proof.
  induction l as [|y l IH]; simpl.
  - intros Hin. by apply elem_of_nil in Hin.
  - intros Hin. destruct (decide (x = y)) as [->|Hne].
    + exists 0. split; [done|lia].
    + apply elem_of_cons in Hin as [?|Hin]; [done|].
      destruct (IH Hin) as (k & -> & Hk). exists (S k). split; [done|lia].
Qed.

Lemma one_hot_spec (n i : nat) :
  i < n ->
  exists mask, one_hot n i = inr mask /\ length mask = n /\
    mask !! i = Some 1%Z /\
    forall j, j < n -> j <> i -> mask !! j = Some 0%Z.
Proof.
  intros Hi. unfold one_hot. rewrite decide_True by done.
  eexists. split; [done|]. split; [|split].
  - by rewrite length_insert, length_replicate.
  - apply list_lookup_insert_eq. by rewrite length_replicate.
  - intros j Hj Hne. rewrite list_lookup_insert_ne by done.
    by apply lookup_replicate_2.
Qed.

Lemma deque_append_not_full {A} (m : nat) (d : list A) (x : A) :
  length d < m -> deque_append m d x = d ++ [x].
Proof.
  intros Hlt. unfold deque_append. rewrite length_app. simpl.
  replace (length d + 1 - m) with 0 by lia. done.
Qed.


Lemma deque_append_length {A} (m : nat) (d : list A) (x : A) :
  length d <= m -> length (deque_append m d x) = Nat.min (S (length d)) m.
Proof.
  intros Hle. unfold deque_append. rewrite length_drop, length_app.
  change (length [x]) with 1. lia.
Qed.

Lemma deque_append_snoc {A} (m : nat) (d : list A) (x : A) :
  0 < m -> exists d', deque_append m d x = d' ++ [x].
Proof.
  intros Hm. unfold deque_append.
  destruct (decide (length d + 1 - m <= length d)) as [Hle|Hgt].
  - rewrite length_app. simpl. rewrite drop_app_le by done. eauto.
  - lia.
Qed.

End PyFacts.

(* ===================================================================== *)
(** ** The environment adapter *)
(* ===================================================================== *)

Section DreamEnvFacts.
Import Py DreamEnv.
Context (R : RetroEnv).

Implicit Types (env : DreamEnv.t R) (mask : list Z) (s : loop_state R).

(** *** Action translation *)

Lemma translate_action_name env (i : Z) (name : option string) :
  getitem (dream_buttons R env) i = inr name ->
  translate_action R env i =
    if bool_decide (name ∈ buttons R env)
    then match index name (buttons R env) with
         | Some a => one_hot (num_buttons R env) a
         | None => raise (ValueError "Invalid action")
         end
    else raise (ValueError "Invalid action").
Proof.
  intros Hget. unfold translate_action, contains. rewrite Hget. simpl.
  by destruct (bool_decide (name ∈ buttons R env)).
Qed.

Lemma translate_action_known env (i : Z) (name : option string) :
  getitem (dream_buttons R env) i = inr name ->
  name ∈ buttons R env ->
  exists k, index name (buttons R env) = Some k /\
            k < length (buttons R env) /\
            translate_action R env i = one_hot (num_buttons R env) k.
Proof.
  intros Hget Hin. rewrite (translate_action_name _ _ _ Hget).
  rewrite bool_decide_eq_true_2 by done.
  destruct (index_elem_of _ _ Hin) as (k & Hk & Hlt).
  exists k. by rewrite Hk.
Qed.

Lemma translate_action_unknown env (i : Z) (name : option string) :
  getitem (dream_buttons R env) i = inr name ->
  name ∉ buttons R env ->
  translate_action R env i = inl (ValueError "Invalid action").
Proof.
  intros Hget Hnin. rewrite (translate_action_name _ _ _ Hget).
  by rewrite bool_decide_eq_false_2.
Qed.

Lemma one_hot_not_value_error (n k : nat) (msg : string) :
  one_hot n k <> inl (ValueError msg).
Proof. unfold one_hot. by destruct (decide (k < n)). Qed.

(** After the translation, [step] raises nothing but what [torch.stack] and
    [torch.cat] raise. *)
Lemma step_after_translate env (i : Z) (fs : option Z) mask :
  translate_action R env i = inr mask ->
  snd (step R env i fs) = inl RuntimeError \/
  exists res, snd (step R env i fs) = inr res.
Proof.
  intros Htr. unfold step. rewrite Htr.
  set (s := tick_loop R _ mask _).
  destruct (ls_frame_buffer R s) as [|f fb]; simpl; [by left|].
  destruct (deque_append 4 _ _) as [|b buf]; simpl; [by left|].
  right. eauto.
Qed.

Lemma step_translate_error env (i : Z) (fs : option Z) (e : exn) :
  translate_action R env i = inl e ->
  step R env i fs = (env, inl e).
Proof. intros Htr. unfold step. by rewrite Htr. Qed.

(** C1, as amended: when the index resolves to the name [name], [step] raises
    the invalid-action error exactly when [name] is not one of the buttons
    of the underlying environment ([self.buttons]); and when it is one, and
    the base class has one mask entry per button, the name is translated to
    the mask that holds 1 at the first position of [name] among the buttons
    and 0 everywhere else. *)
Theorem step_invalid_action_iff env (i : Z) (fs : option Z)
    (name : option string) :
  getitem (dream_buttons R env) i = inr name ->
  (snd (step R env i fs) = inl (ValueError "Invalid action")
     <-> name ∉ buttons R env) /\
  (name ∈ buttons R env ->
   num_buttons R env = length (buttons R env) ->
   exists k mask,
     index name (buttons R env) = Some k /\
     translate_action R env i = inr mask /\
     length mask = num_buttons R env /\
     mask !! k = Some 1%Z /\
     forall j, j < num_buttons R env -> j <> k -> mask !! j = Some 0%Z).
Proof.
  intros Hget. split; [split|].
  - intros Hraise Hin.
    destruct (translate_action_known _ _ _ Hget Hin) as (k & _ & _ & Htr).
    destruct (one_hot (num_buttons R env) k) as [e|mask] eqn:Hoh.
    + rewrite (step_translate_error _ _ _ _ Htr) in Hraise. simpl in Hraise.
      injection Hraise as ->. by apply one_hot_not_value_error in Hoh.
    + destruct (step_after_translate _ _ fs _ Htr) as [Hs|[res Hs]];
        rewrite Hs in Hraise; discriminate.
  - intros Hnin.
    by rewrite (step_translate_error _ _ _ _
                  (translate_action_unknown _ _ _ Hget Hnin)).
  - intros Hin Hnum.
    destruct (translate_action_known _ _ _ Hget Hin) as (k & Hk & Hlt & Htr).
    destruct (one_hot_spec (num_buttons R env) k) as (mask & Hoh & Hm);
      [lia|].
    exists k, mask. rewrite Htr. by repeat split; try apply Hm.
Qed.


(** *** The frame-skip loop against the emulator on its own *)

Lemma raw_ticks_length (n : nat) mask (e : Emu R) :
  length (raw_ticks R n mask e) = n.
Proof.
  revert e. induction n as [|n IH]; intros e; simpl; [done|].
  destruct (retro_step R e mask) as [[[[e' ob] r] d] inf]. simpl.
  by rewrite IH.
Qed.

Lemma raw_ticks_take (k n : nat) mask (e : Emu R) :
  k <= n -> take k (raw_ticks R n mask e) = raw_ticks R k mask e.
Proof.
  revert n e. induction k as [|k IH]; intros n e Hle; simpl; [done|].
  destruct n as [|n]; [lia|]. simpl.
  destruct (retro_step R e mask) as [[[[e' ob] r] d] inf]. simpl.
  rewrite IH by lia. done.
Qed.

Lemma until_done_take (l : list (raw_tick R)) :
  until_done R l = take (length (until_done R l)) l.
Proof.
  induction l as [|x l IH]; simpl; [done|].
  destruct (tick_done R x); simpl; [by rewrite take_0|].
  by rewrite <- IH.
Qed.

Lemma until_done_length (l : list (raw_tick R)) :
  length (until_done R l) <= length l.
Proof.
  induction l as [|x l IH]; simpl; [done|].
  destruct (tick_done R x); simpl; lia.
Qed.

Lemma until_done_early (l : list (raw_tick R)) :
  length (until_done R l) < length l ->
  exists x, last (until_done R l) = Some x /\ tick_done R x = true.
Proof.
  induction l as [|x l IH]; simpl; [lia|].
  destruct (tick_done R x) eqn:Hd; simpl.
  - intros _. eauto.
  - intros Hlt. destruct IH as (y & Hy & Hdy); [lia|].
    exists y. split; [|done].
    destruct (until_done R l); [done|]. done.
Qed.


Lemma until_done_nonempty (l : list (raw_tick R)) :
  0 < length l -> 0 < length (until_done R l).
Proof.
  destruct l as [|x l]; simpl; [lia|].
  destruct (tick_done R x); simpl; lia.
Qed.

Lemma executed_raw (n : nat) mask (e : Emu R) :
  executed R n mask e = raw_ticks R (length (executed R n mask e)) mask e.
Proof.
  unfold executed. rewrite until_done_take at 1.
  apply raw_ticks_take.
  etrans; [apply until_done_length|]. by rewrite raw_ticks_length.
Qed.

Lemma executed_length (n : nat) mask (e : Emu R) :
  length (executed R n mask e) <= n.
Proof.
  unfold executed. etrans; [apply until_done_length|].
  by rewrite raw_ticks_length.
Qed.

Lemma last_cons_from_option {A B} (f : A -> B) (d : B) (x : A) (l : list A) :
  from_option f (f x) (last l) = from_option f d (last (x :: l)).
Proof.
  destruct l as [|y l]; [reflexivity|].
  change (last (x :: y :: l)) with (last (y :: l)).
  destruct (last (y :: l)) eqn:E; [reflexivity|].
  by apply last_None in E.
Qed.

(** The loop carries out exactly the ticks [executed] lists: it advances the
    frame counter and the emulator by them, adds their rewards to the total,
    keeps the done flag of the last one and pushes their frames through the
    two-frame buffer. *)
Lemma tick_loop_spec (n : nat) mask s :
  let ticks := executed R n mask (em R (ls_env R s)) in
  let s' := tick_loop R n mask s in
  ls_env R s' =
    set_em R (final_em R (em R (ls_env R s)) ticks)
      (set_frame R (frame R (ls_env R s) + Z.of_nat (length ticks))%Z
         (ls_env R s)) /\
  ls_total_reward R s' =
    foldl (radd R) (ls_total_reward R s) (map (tick_reward R) ticks) /\
  ls_done R s' = from_option (tick_done R) (ls_done R s) (last ticks) /\
  ls_frame_buffer R s' =
    foldl (deque_append 2) (ls_frame_buffer R s)
      (map (fun x => frame_at R (ls_env R s) (tick_em R x)) ticks).
Proof.
  revert s. induction n as [|n IH]; intros s; cbv zeta.
  - simpl. repeat split; try done.
    destruct (ls_env R s). unfold set_em, set_frame, final_em. simpl.
    f_equal. lia.
  - destruct (retro_step R (em R (ls_env R s)) mask)
      as [[[[e' ob] r] d] inf] eqn:Hstep.
    assert (Htick : tick R mask s =
      {| ls_env := set_em R e'
                     (set_frame R (frame R (ls_env R s) + 1)%Z (ls_env R s));
         ls_total_reward := radd R (ls_total_reward R s) r;
         ls_done := d;
         ls_frame_buffer :=
           deque_append 2 (ls_frame_buffer R s)
             (frame_at R (ls_env R s) e') |}).
    { unfold tick. simpl. by rewrite Hstep. }
    unfold executed. simpl. rewrite Hstep, Htick. simpl.
    destruct d; simpl.
    + repeat split; done.
    + match goal with |- context [tick_loop R n mask ?s1] =>
        destruct (IH s1) as (He & Ht & Hd & Hf) end.
      simpl in He, Ht, Hd, Hf. fold (executed R n mask e').
      rewrite He, Ht, Hd, Hf. clear He Ht Hd Hf.
      repeat split.
      * unfold set_em, set_frame, final_em. simpl. f_equal.
        -- lia.
        -- apply (last_cons_from_option (tick_em R) _ (e', r, false)).
      * apply (last_cons_from_option (tick_done R) _ (e', r, false)).
Qed.

Lemma foldl_deque_append {A} (m : nat) (d l : list A) :
  length d <= m ->
  foldl (deque_append m) d l = drop (length (d ++ l) - m) (d ++ l).
Proof.
  revert d. induction l as [|x l IH]; intros d Hd.
  - simpl. rewrite app_nil_r. replace (length d - m) with 0 by lia. done.
  - change (foldl (deque_append m) d (x :: l))
      with (foldl (deque_append m) (deque_append m d x) l).
    rewrite IH by (rewrite deque_append_length by done; lia).
    rewrite length_app, deque_append_length by done.
    unfold deque_append. rewrite !length_app. change (length [x]) with 1.
    change (length (x :: l)) with (S (length l)).
    replace (d ++ x :: l) with ((d ++ [x]) ++ l) by (by rewrite <- app_assoc).
    rewrite <- (drop_app_le (d ++ [x]) l)
      by (rewrite length_app; change (length [x]) with 1; lia).
    rewrite drop_drop. f_equal. lia.
Qed.

Lemma max0_last_two (frames : list (Frame R)) :
  max0 (pmax R) (drop (length frames - 2) frames) = max_of_last_two R frames.
Proof.
  unfold max_of_last_two.
  destruct frames as [|f2 frames _] using rev_ind; [done|].
  destruct frames as [|f1 frames _] using rev_ind; [done|].
  rewrite !reverse_app. simpl. rewrite !length_app. simpl.
  replace (length frames + 1 + 1 - 2) with (length frames) by lia.
  rewrite <- app_assoc, drop_app_length. done.
Qed.

Lemma stack_cons (f : Frame R) (l : list (Frame R)) :
  stack (f :: l) = inr (f :: l).
Proof. done. Qed.

Lemma executed_nonempty (n : nat) mask (e : Emu R) :
  0 < n -> 0 < length (executed R n mask e).
Proof.
  intros Hn. apply until_done_nonempty. by rewrite raw_ticks_length.
Qed.

(** The object [step] leaves behind and the tuple it returns, when the
    action translates to [mask] and at least one tick is requested. *)
Lemma step_success env (i : Z) (fs : option Z) mask :
  translate_action R env i = inr mask ->
  (0 < effective_frame_skip R env fs)%Z ->
  let ticks :=
    executed R (range_len (effective_frame_skip R env fs)) mask (em R env) in
  let maxed :=
    max_of_last_two R (map (fun x => frame_at R env (tick_em R x)) ticks) in
  let env' :=
    set_state_buffer R (deque_append 4 (state_buffer R env) maxed)
      (set_em R (final_em R (em R env) ticks)
         (set_frame R (frame R env + Z.of_nat (length ticks))%Z env)) in
  step R env i fs =
    (env', inr (concat (state_buffer R env'), sum_rewards R ticks,
                final_done R ticks, None)).
Proof.
  intros Htr Hn. cbv zeta. unfold step. rewrite Htr. cbv zeta.
  set (n := range_len (effective_frame_skip R env fs)).
  assert (Hpos : 0 < n) by (unfold n, range_len; lia).
  set (s0 := {| ls_env := env; ls_total_reward := rzero R;
                ls_done := false; ls_frame_buffer := [] |}).
  destruct (tick_loop_spec n mask s0) as (He & Ht & Hd & Hf).
  simpl in He, Ht, Hd, Hf. rewrite He, Ht, Hd, Hf.
  rewrite foldl_deque_append by (simpl; lia). simpl.
  set (ticks := executed R n mask (em R env)) in *.
  set (frames := map (fun x => frame_at R env (tick_em R x)) ticks).
  assert (Hfr : 0 < length frames).
  { unfold frames. rewrite length_map. by apply executed_nonempty. }
  destruct (drop (length frames - 2) frames) as [|f fb] eqn:Hdrop.
  { apply (f_equal length) in Hdrop. rewrite length_drop in Hdrop.
    simpl in Hdrop. lia. }
  rewrite stack_cons. rewrite <- Hdrop, max0_last_two.
  destruct (deque_append_snoc 4 (state_buffer R env)
              (max_of_last_two R frames)) as [d' Hd']; [lia|].
  simpl. rewrite Hd'.
  destruct (d' ++ [max_of_last_two R frames]) as [|b buf] eqn:Hb.
  { by apply app_nil in Hb as [_ ?]. }
  done.
Qed.

(** With nothing to repeat no frame is rendered, and [torch.stack] raises. *)
Lemma step_no_ticks env (i : Z) (fs : option Z) mask :
  translate_action R env i = inr mask ->
  (effective_frame_skip R env fs <= 0)%Z ->
  step R env i fs = (env, inl RuntimeError).
Proof.
  intros Htr Hn. unfold step. rewrite Htr.
  replace (range_len (effective_frame_skip R env fs)) with 0
    by (unfold range_len; lia).
  done.
Qed.



(** C10: whenever [step] returns a tuple its info component is [None],
    whatever info the ticks of the underlying environment produced; and it
    does return one for every action that translates and every frame skip
    of at least one tick. *)
Theorem step_info_none env (i : Z) (fs : option Z) :
  (forall env' state reward done info,
     step R env i fs = (env', inr (state, reward, done, info)) ->
     info = None) /\
  (forall mask,
     translate_action R env i = inr mask ->
     (0 < effective_frame_skip R env fs)%Z ->
     exists env' state reward done,
       step R env i fs = (env', inr (state, reward, done, None))).
Proof.
  split.
  - intros env' state reward done info. unfold step.
    destruct (translate_action R env i) as [e|mask]; [discriminate|].
    cbv zeta. destruct (stack _) as [e|stacked]; [discriminate|].
    destruct (cat _) as [e|st]; [discriminate|].
    unfold ret. intros [= _ _ _ _ <-]. done.
  - intros mask Htr Hpos.
    pose proof (step_success env i fs mask Htr Hpos) as Hs. cbv zeta in Hs.
    rewrite Hs. eauto 6.
Qed.

(** *** Construction and reset *)

Lemma deque_append_replicate {A} (k : nat) (x : A) :
  k <= 4 -> deque_append 4 (replicate k x) x = replicate (Nat.min (S k) 4) x.
Proof.
  intros Hk. do 5 (destruct k as [|k]; [reflexivity|]). lia.
Qed.

Lemma prefill_replicate (n k : nat) (f : Frame R) :
  k <= 4 ->
  prefill R n (replicate k f) f = replicate (Nat.min (k + n) 4) f.
Proof.
  revert k. induction n as [|n IH]; intros k Hk; simpl.
  - by replace (Nat.min (k + 0) 4) with k by lia.
  - rewrite deque_append_replicate by done.
    rewrite IH by lia. f_equal. lia.
Qed.

(** The buffer [__init__] leaves behind holds the first frame
    [min frame_skip 4] times: the loop appends once per unit of the
    configured frame skip, and the deque keeps 4 entries at most. *)
Lemma init_state_buffer (config : Config) (base_buttons : list (option string))
    (nb : nat) (actions : option (list (option string)))
    (name_arg : option string) (w initial : bool) (pl : nat)
    (movie : option string) (e : Emu R) :
  state_buffer R
    (init R config base_buttons nb actions name_arg w initial pl movie e) =
  replicate (Nat.min (range_len (cfg_frame_skip config)) 4)
    [screen_transform R (cfg_height config) (cfg_width config) (render R e)].
Proof.
  unfold init. simpl. apply (prefill_replicate _ 0). lia.
Qed.

Lemma concat_replicate_singleton {A} (n : nat) (x : A) :
  concat (replicate n [x]) = replicate n x.
Proof. induction n as [|n IH]; simpl; [done|]. by rewrite IH. Qed.

(** With a frame skip of 4 or more the fresh state is the first frame four
    times. *)
Lemma get_state_fresh_full (config : Config)
    (base_buttons : list (option string))
    (nb : nat) (actions : option (list (option string)))
    (name_arg : option string) (w initial : bool) (pl : nat)
    (movie : option string) (e : Emu R) :
  (4 <= cfg_frame_skip config)%Z ->
  get_state R
    (init R config base_buttons nb actions name_arg w initial pl movie e) =
  inr (replicate 4
         (screen_transform R (cfg_height config) (cfg_width config)
            (render R e))).
Proof.
  intros H4. unfold get_state. rewrite init_state_buffer.
  replace (Nat.min (range_len (cfg_frame_skip config)) 4) with 4
    by (unfold range_len; lia).
  done.
Qed.

(** C6, what the code does: with a configured frame skip between 1 and 3
    the state of a fresh environment has that many frames, not 4. *)
Theorem get_state_fresh_short (config : Config)
    (base_buttons : list (option string))
    (nb : nat) (actions : option (list (option string)))
    (name_arg : option string) (w initial : bool) (pl : nat)
    (movie : option string) (e : Emu R) :
  (0 < cfg_frame_skip config < 4)%Z ->
  exists state,
    get_state R
      (init R config base_buttons nb actions name_arg w initial pl movie e) =
    inr state /\
    Z.of_nat (length state) = cfg_frame_skip config /\
    length state <> 4.
Proof.
  intros Hskip. unfold get_state. rewrite init_state_buffer.
  replace (Nat.min (range_len (cfg_frame_skip config)) 4)
    with (range_len (cfg_frame_skip config)) by (unfold range_len; lia).
  destruct (range_len (cfg_frame_skip config)) as [|n] eqn:Hn;
    [unfold range_len in Hn; lia|].
  eexists. split; [reflexivity|].
  change (concat (replicate (S n) [?x])) with (x :: concat (replicate n [x])).
  rewrite concat_replicate_singleton. simpl. rewrite length_replicate.
  unfold range_len in Hn. lia.
Qed.

(** C8, as amended: [reset] increments the episode counter by exactly one
    when a recording directory is configured ([movie_path] is not [None]),
    and leaves it as it is otherwise. *)
Theorem reset_episode_counter env :
  episode R (fst (reset R env)) =
    match movie_path R env with
    | Some _ => (episode R env + 1)%Z
    | None => episode R env
    end.
Proof.
  unfold reset. destruct (movie_path R env); destruct (update_obs R _); done.
Qed.

End DreamEnvFacts.

(* ===================================================================== *)
(** ** The optimisation step *)
(* ===================================================================== *)

Section DQNFacts.
Import Py DQN.
Context (T : Torch).

Implicit Types (self : DQN.t T) (transitions : list (transition T)).

(** C2: with fewer than [batch_size] transitions in the memory,
    [optimize_model] returns at once: [memory.sample] has not run (the world,
    with its count of [sample] calls and the random state, is as before),
    the model (both networks and their gradients) and the optimizer are the
    objects passed in, and the value of the call is [None]. *)
Theorem optimize_model_short_memory self (optimizer : OptState T)
    (mem : ReplayMemory T) (batch_size : Z) (gamma : Scalar T)
    (w : World T) :
  (len T mem < batch_size)%Z ->
  optimize_model T self optimizer mem batch_size gamma w =
    (w, inr (self, optimizer, None)).
Proof.
  intros Hlen. unfold optimize_model.
  destruct (Z.ltb_spec (len T mem) batch_size) as [_|Hge]; [done|lia].
Qed.

(** Past the guard [memory.sample] runs exactly once. *)
Lemma optimize_model_samples self (optimizer : OptState T)
    (mem : ReplayMemory T) (batch_size : Z) (gamma : Scalar T)
    (w : World T) :
  (batch_size <= len T mem)%Z ->
  sample_calls T (fst (optimize_model T self optimizer mem batch_size gamma w))
    = S (sample_calls T w).
Proof.
  intros Hlen. unfold optimize_model, sample.
  destruct (Z.ltb_spec (len T mem) batch_size) as [Hlt|_]; [lia|].
  destruct (_ || _); simpl; [done|].
  by destruct (random_sample T _ _ _).
Qed.

(** *** The regression targets *)



Lemma non_final_next_states_some transitions :
  (exists tr', tr' ∈ transitions /\ next_state tr' <> None) ->
  non_final_next_states T (map next_state transitions) =
    inr (omap id (map next_state transitions)).
Proof.
  intros (tr' & Hin & Hsome). unfold non_final_next_states, cat_rows.
  destruct (omap id (map next_state transitions)) as [|s l] eqn:E; [|done].
  exfalso. destruct (next_state tr') as [s|] eqn:Hs; [|done].
  assert (Hel : s ∈ omap id (map next_state transitions)).
  { apply list_elem_of_omap. exists (Some s). split; [|done].
    apply list_elem_of_fmap. exists tr'. by rewrite Hs. }
  rewrite E in Hel. by apply elem_of_nil in Hel.
Qed.


Lemma state_action_values_tape self (states : list (State T))
    (actions : list Z) (q : tracked T) :
  state_action_values T self states actions = inr q ->
  tape T q = [PolicyNet].
Proof.
  unfold state_action_values. destruct (zipM _ _ _) as [e|qs]; simpl; [done|].
  by intros [= <-].
Qed.

(** What a completed optimisation step went through: the intermediate
    tensors, the loss it formed from them, the value it returns, and what it
    left of the target network. *)
Lemma optimize_batch_inv self (optimizer : OptState T) transitions
    (batch_size : Z) (gamma : Scalar T) (o : outcome T) :
  optimize_batch T self optimizer transitions batch_size gamma = inr o ->
  exists nfns q expected,
    non_final_next_states T (map next_state transitions) = inr nfns /\
    state_action_values T self (map state transitions)
      (map action transitions) = inr q /\
    expected_state_action_values T self
      (non_final_mask T (map next_state transitions)) nfns
      (map reward transitions) batch_size gamma = inr expected /\
    out_loss T o = smooth_l1_loss T (val T q) (val T expected) /\
    out_value T o = None /\
    target_net T (out_self T o) = target_net T self /\
    (TargetNet ∉ tape T expected ->
     target_grad T (out_self T o) = target_grad T self).
Proof.
  unfold optimize_batch, transpose.
  destruct transitions as [|tr0 trs]; [discriminate|].
  set (transitions := tr0 :: trs).
  change (map next_state transitions)
    with (next_state tr0 :: map next_state trs).
  change (map state transitions) with (state tr0 :: map state trs).
  change (map action transitions) with (action tr0 :: map action trs).
  change (map reward transitions) with (reward tr0 :: map reward trs).
  cbn [bind ret].
  destruct (non_final_next_states T _) as [e|nfns]; cbn [bind];
    [discriminate|].
  destruct (state_action_values T self _ _) as [e|q] eqn:Hq; cbn [bind];
    [discriminate|].
  destruct (expected_state_action_values T self _ _ _ _ _)
    as [e|expected] eqn:Hex; cbn [bind]; [discriminate|].
  unfold huber_loss.
  destruct (clamp_grads T _) as [e|self3] eqn:Hclamp; cbn [bind];
    [discriminate|].
  destruct (optimizer_step T _ _ _) as [optimizer' params'].
  intros [= <-]. cbn [out_loss out_value out_self target_net target_grad].
  unfold clamp_grads in Hclamp.
  destruct (policy_grad T _); [|discriminate].
  injection Hclamp as <-. cbn [target_net target_grad backward zero_grad].
  exists nfns, q, expected.
  do 2 (split; [reflexivity|]). split; [exact Hex|].
  do 3 (split; [reflexivity|]).
  intros Hnot. rewrite (state_action_values_tape _ _ _ _ Hq).
  rewrite bool_decide_eq_false_2; [done|].
  intros Hin. apply elem_of_cons in Hin as [?|Hin]; [done|].
  by apply Hnot.
Qed.



End DQNFacts.

(* ===================================================================== *)
(** ** The trainer *)
(* ===================================================================== *)

Section TrainerFacts.
Import Py Trainer.
Context (P : Runtime).

Implicit Types (v : vars P) (self : Trainer.t P).

(** A decision is logged with the [steps_done] it was called with. *)
Lemma training_select_action_decisions self (state : option (State P))
    (steps_done : Z) :
  decisions P (fst (training_select_action P self state steps_done)) =
    decisions P self ++ [steps_done].
Proof.
  unfold training_select_action. simpl.
  destruct (random P (rng P self)) as [g sample].
  destruct (fgt P sample _); simpl; [done|].
  by destruct (random_action P _ _).
Qed.

Lemma episode_start_steps_done v :
  steps_done P (episode_start P v) = steps_done P v /\
  decisions P (Trainer.self P (episode_start P v)) =
    decisions P (Trainer.self P v) ++ [steps_done P v].
Proof.
  unfold episode_start.
  pose proof (training_select_action_decisions (Trainer.self P v)
    (Some (screen_sub P (get_screen P (env_reset P (env P v)))
             (get_screen P (env_reset P (env P v)))))
    (steps_done P v)) as Hd.
  destruct (training_select_action P _ _ _) as [self1 a]. simpl in *.
  done.
Qed.

Lemma loop_body_steps_done (t_ : Z) v v' (done : bool) :
  loop_body P t_ v = inr (v', done) ->
  steps_done P v' = steps_done P v /\
  decisions P (Trainer.self P v') =
    decisions P (Trainer.self P v) ++
      (if (t_ mod FRAME_SKIP =? 0)%Z then [steps_done P v] else []).
Proof.
  unfold loop_body.
  pose proof (training_select_action_decisions (Trainer.self P v)
                (state P v) (steps_done P v)) as Hd.
  destruct (training_select_action P _ _ _) as [s1 a]. simpl in Hd.
  destruct (t_ mod FRAME_SKIP =? 0)%Z.
  - destruct (zeros_set_one 9 _) as [e|retro_action]; simpl; [discriminate|].
    destruct (env_step P _ _) as [[env1 reward] d].
    destruct (agent_optimize_model P _ _ _ _ _ _) as [[agent1 optimizer1] g].
    intros [= <- <-]. simpl. done.
  - destruct (zeros_set_one 9 _) as [e|retro_action]; simpl; [discriminate|].
    destruct (env_step P _ _) as [[env1 reward] d].
    destruct (agent_optimize_model P _ _ _ _ _ _) as [[agent1 optimizer1] g].
    intros [= <- <-]. simpl. by rewrite app_nil_r.
Qed.

Lemma episode_loop_steps_done (fuel : nat) (t_ : Z) v v' (left : bool) :
  episode_loop P fuel t_ v = inr (v', left) ->
  steps_done P v' = steps_done P v /\
  exists k, decisions P (Trainer.self P v') =
              decisions P (Trainer.self P v) ++ replicate k (steps_done P v).
Proof.
  revert t_ v. induction fuel as [|fuel IH]; intros t_ v; simpl.
  - intros [= <- <-]. split; [done|]. exists 0. by rewrite app_nil_r.
  - destruct (loop_body P t_ v) as [e|[v1 d]] eqn:Hbody; simpl;
      [discriminate|].
    destruct (loop_body_steps_done _ _ _ _ Hbody) as [Hs Hd].
    assert (Hone : exists k1, decisions P (Trainer.self P v1) =
              decisions P (Trainer.self P v) ++ replicate k1 (steps_done P v)).
    { destruct (t_ mod FRAME_SKIP =? 0)%Z.
      - by exists 1.
      - by exists 0. }
    destruct Hone as [k1 Hk1].
    destruct d.
    + intros [= <- <-]. split; [done|]. by exists k1.
    + intros Hrest. destruct (IH _ _ Hrest) as [Hs' [k Hk]].
      split; [congruence|]. exists (k1 + k).
      rewrite Hk, Hk1, Hs, <- app_assoc. f_equal.
      by rewrite replicate_add.
Qed.

(** C7, what the code does: over an episode, however long it runs, the
    [steps_done] of [train] keeps its value, while the decisions taken, one
    before the loop and one every [FRAME_SKIP] iterations, were all taken
    with that same value, so that the threshold they compare against is the
    same number each time. *)
Theorem steps_done_never_advances (fuel : nat) v v' (left : bool) :
  run_episode P fuel v = inr (v', left) ->
  steps_done P v' = steps_done P v /\
  exists k,
    decisions P (Trainer.self P v') =
      decisions P (Trainer.self P v) ++ replicate (S k) (steps_done P v).
Proof.
  unfold run_episode. intros Hrun.
  destruct (episode_start_steps_done v) as [Hs0 Hd0].
  destruct (episode_loop_steps_done _ _ _ _ _ Hrun) as [Hs [k Hk]].
  split; [congruence|]. exists k.
  rewrite Hk, Hd0, Hs0, <- app_assoc. done.
Qed.

End TrainerFacts.

(* ===================================================================== *)
(** ** The statements at concrete inputs *)
(* ===================================================================== *)

Section Concrete.
Import Py.

(** C1, as stated, fails: on a console whose button list has no unused slot
    the trailing no-op entry of the reduced action set is an entry of that
    set, and [step] on its index raises the invalid-action error. *)
Lemma noop_entry_rejected_on_genesis :
  getitem (DreamEnv.dream_buttons Toy.retro (Toy.genesis_env 4)) 3
    = inr None /\
  None ∈ DreamEnv.dream_buttons Toy.retro (Toy.genesis_env 4) /\
  snd (DreamEnv.step Toy.retro (Toy.genesis_env 4) 3 None)
    = inl (ValueError "Invalid action").
Proof.
  split; [reflexivity|]. split; [|reflexivity].
  apply list_elem_of_lookup. exists 3. reflexivity.
Qed.

Lemma step_invalid_action_iff_witness :
  getitem (DreamEnv.dream_buttons Toy.retro (Toy.nes_env 4 None)) 3
    = inr None /\
  exists k mask,
    index None Toy.nes_buttons = Some k /\
    DreamEnv.translate_action Toy.retro (Toy.nes_env 4 None) 3 = inr mask /\
    mask !! k = Some 1%Z.
Proof.
  split; [reflexivity|].
  destruct (step_invalid_action_iff Toy.retro (Toy.nes_env 4 None) 3 None
              None eq_refl) as [_ H].
  destruct H as (k & mask & Hk & Htr & _ & H1 & _).
  - apply list_elem_of_lookup. exists 1. reflexivity.
  - reflexivity.
  - exists k, mask. split; [exact Hk|]. split; [exact Htr|exact H1].
Defined.


(** The toy emulator logs the masks it is stepped with: three ticks, the
    third signalling done, all with the mask of LEFT. *)
Example step_log_same_mask :
  snd (DreamEnv.em Toy.retro
         (fst (DreamEnv.step Toy.retro (Toy.nes_env 4 None) 0 None)))
    = replicate 3 [0; 0; 0; 0; 0; 0; 1; 0; 0]%Z.
Proof. reflexivity. Qed.

(** On the NES the trailing no-op entry resolves to the unused slot 1. *)
Example noop_entry_on_nes :
  DreamEnv.translate_action Toy.retro (Toy.nes_env 4 None) 3
    = inr [0; 1; 0; 0; 0; 0; 0; 0; 0]%Z.
Proof. reflexivity. Qed.

(** A configured action name that is no button is rejected, on the NES
    too. *)
Example unknown_name_rejected_on_nes :
  snd (DreamEnv.step Toy.retro
         (DreamEnv.init Toy.retro (Toy.config 4) Toy.nes_buttons 9
            (Some [Some "LEFT"; Some "JUMP"]%string) None false true 1 None
            (0%Z, []))
         1 None)
    = inl (ValueError "Invalid action").
Proof. reflexivity. Qed.


Lemma step_info_none_witness :
  DreamEnv.translate_action Toy.retro (Toy.nes_env 4 None) 0
    = inr [0; 0; 0; 0; 0; 0; 1; 0; 0]%Z /\
  exists env' state reward done,
    DreamEnv.step Toy.retro (Toy.nes_env 4 None) 0 None
      = (env', inr (state, reward, done, None)).
Proof.
  split; [reflexivity|].
  apply (proj2 (step_info_none Toy.retro (Toy.nes_env 4 None) 0 None)
           [0; 0; 0; 0; 0; 0; 1; 0; 0]%Z eq_refl).
  reflexivity.
Defined.

(** C6 at a frame skip of 2: the fresh state has two frames. *)
Lemma get_state_fresh_short_witness :
  (0 < DreamEnv.cfg_frame_skip (Toy.config 2) < 4)%Z /\
  exists state,
    DreamEnv.get_state Toy.retro (Toy.genesis_env 2) = inr state /\
    Z.of_nat (length state) = 2%Z /\ length state <> 4.
Proof.
  split; [vm_compute; split; reflexivity|].
  apply (get_state_fresh_short Toy.retro (Toy.config 2)).
  vm_compute. split; reflexivity.
Defined.

(** C8, as stated, fails: without a recording directory a reset leaves the
    episode counter where it was. *)
Lemma reset_keeps_episode_without_recording :
  DreamEnv.movie_path Toy.retro (Toy.nes_env 4 None) = None /\
  DreamEnv.episode Toy.retro
    (fst (DreamEnv.reset Toy.retro (Toy.nes_env 4 None)))
    = DreamEnv.episode Toy.retro (Toy.nes_env 4 None) /\
  DreamEnv.episode Toy.retro
    (fst (DreamEnv.reset Toy.retro (Toy.nes_env 4 None)))
    <> (DreamEnv.episode Toy.retro (Toy.nes_env 4 None) + 1)%Z.
Proof. split; [reflexivity|]. split; [reflexivity|]. vm_compute. discriminate. Qed.

Example reset_counts_recorded_episode :
  DreamEnv.episode Toy.retro
    (fst (DreamEnv.reset Toy.retro (Toy.nes_env 4 (Some "movies"%string))))
    = 2%Z.
Proof. reflexivity. Qed.

Lemma optimize_model_short_memory_witness :
  (DQN.len Toy.torch (Toy.replay Toy.two_transitions) < 3)%Z /\
  DQN.optimize_model Toy.torch Toy.model 0 (Toy.replay Toy.two_transitions)
    3 2%Z Toy.world
    = (Toy.world, inr (Toy.model, 0, None)).
Proof.
  split; [reflexivity|].
  apply optimize_model_short_memory. reflexivity.
Defined.




(** C7 on a run: an episode of six steps takes three decisions, each with
    [steps_done = 0], and [steps_done] is 0 when the episode is over. *)
Lemma steps_done_never_advances_witness :
  exists v',
    Trainer.run_episode Toy.runtime 10 Toy.train_start = inr (v', true) /\
    Trainer.steps_done Toy.runtime v' = 0%Z /\
    Trainer.decisions Toy.runtime (Trainer.self Toy.runtime v')
      = [0; 0; 0]%Z.
Proof.
  eexists. split; [vm_compute; reflexivity|].
  split.
  - eapply (proj1 (steps_done_never_advances Toy.runtime 10 Toy.train_start
                     _ true _)).
  - reflexivity.
  Unshelve. vm_compute. reflexivity.
Defined.

End Concrete.

(* ===================================================================== *)
(** ** More on the adapter: bounds, invariants, composition *)
(* ===================================================================== *)

Section DreamEnvMore.
Import Py DreamEnv.
Context (R : RetroEnv).

Implicit Types (env : DreamEnv.t R) (mask : list Z).

Lemma getitem_out_of_range {A} (l : list A) (i : Z) :
  (i < - Z.of_nat (length l) \/ Z.of_nat (length l) <= i)%Z ->
  getitem l i = inl IndexError.
Proof.
  intros Hi. unfold getitem.
  destruct (Z.ltb_spec i 0); simpl.
  - destruct (Z.leb_spec 0 (i + Z.of_nat (length l))); simpl; [lia|done].
  - destruct (Z.leb_spec 0 i); simpl; [|done].
    destruct (Z.ltb_spec i (Z.of_nat (length l))); simpl; [lia|done].
Qed.

Lemma getitem_negative {A} (l : list A) (i : Z) :
  (- Z.of_nat (length l) <= i < 0)%Z ->
  getitem l i = getitem l (i + Z.of_nat (length l)).
Proof.
  intros Hi. unfold getitem.
  destruct (Z.ltb_spec i 0); [|lia].
  destruct (Z.ltb_spec (i + Z.of_nat (length l)) 0); [lia|]. done.
Qed.

Lemma getitem_nat {A} (l : list A) (i : nat) (x : A) :
  l !! i = Some x -> getitem l (Z.of_nat i) = inr x.
Proof.
  intros Hx. pose proof (lookup_lt_Some _ _ _ Hx) as Hlt. unfold getitem.
  destruct (Z.ltb_spec (Z.of_nat i) 0); [lia|].
  destruct (Z.leb_spec 0 (Z.of_nat i)); [|lia].
  destruct (Z.ltb_spec (Z.of_nat i) (Z.of_nat (length l))); [|lia].
  simpl. by rewrite Nat2Z.id, Hx.
Qed.

(** X1: an action index outside [-len(dream_buttons), len(dream_buttons))
    makes [step] raise IndexError before anything is touched: no tick, no
    frame, the adapter as it was. *)
Theorem step_index_out_of_range env (i : Z) (fs : option Z) :
  (i < - Z.of_nat (length (dream_buttons R env)) \/
   Z.of_nat (length (dream_buttons R env)) <= i)%Z ->
  step R env i fs = (env, inl IndexError).
Proof.
  intros Hi. apply step_translate_error.
  unfold translate_action. by rewrite getitem_out_of_range.
Qed.

(** X2: a negative action index counts from the end of the reduced action
    set: [step(i)] for [-len <= i < 0] is [step(i + len)], so that [-1]
    selects the last entry. *)
Theorem step_negative_index env (i : Z) (fs : option Z) :
  (- Z.of_nat (length (dream_buttons R env)) <= i < 0)%Z ->
  step R env i fs =
    step R env (i + Z.of_nat (length (dream_buttons R env))) fs.
Proof.
  intros Hi. unfold step, translate_action.
  by rewrite (getitem_negative _ _ Hi).
Qed.

(** X3: with a frame skip of zero or less, passed or configured, a valid
    action makes [step] raise RuntimeError (no frame was rendered to
    aggregate); the emulator is not stepped and the state buffer keeps its
    frames. *)
Theorem step_nonpositive_frame_skip env (i : Z) (fs : option Z) mask :
  translate_action R env i = inr mask ->
  (effective_frame_skip R env fs <= 0)%Z ->
  step R env i fs = (env, inl RuntimeError).
Proof. apply step_no_ticks. Qed.

(** *** What [step] and [reset] leave alone *)

Lemma step_buttons env (i : Z) (fs : option Z) :
  let env' := fst (step R env i fs) in
  buttons R env' = buttons R env /\
  dream_buttons R env' = dream_buttons R env /\
  num_buttons R env' = num_buttons R env /\
  frame_skip R env' = frame_skip R env /\
  movie_path R env' = movie_path R env /\
  episode R env' = episode R env.
Proof.
  cbv zeta.
  destruct (translate_action R env i) as [e|mask] eqn:Htr.
  { by rewrite (step_translate_error _ _ _ _ _ Htr). }
  destruct (decide (0 < effective_frame_skip R env fs)%Z) as [Hpos|Hneg].
  - pose proof (step_success R env i fs mask Htr Hpos) as Hs.
    cbv zeta in Hs. by rewrite Hs.
  - by rewrite (step_no_ticks R env i fs mask Htr) by lia.
Qed.

Lemma reset_buttons env :
  let env' := fst (reset R env) in
  buttons R env' = buttons R env /\
  dream_buttons R env' = dream_buttons R env /\
  num_buttons R env' = num_buttons R env /\
  frame_skip R env' = frame_skip R env /\
  movie_path R env' = movie_path R env /\
  state_buffer R env' = state_buffer R env /\
  frame R env' = frame R env.
Proof.
  cbv zeta. unfold reset.
  destruct (movie_path R env) eqn:Hm; destruct (update_obs R _); simpl;
    by rewrite ?Hm.
Qed.

Lemma run_calls_buttons (calls : list call) env :
  let env' := run_calls R calls env in
  buttons R env' = buttons R env /\
  dream_buttons R env' = dream_buttons R env /\
  num_buttons R env' = num_buttons R env /\
  frame_skip R env' = frame_skip R env /\
  movie_path R env' = movie_path R env.
Proof.
  revert env. induction calls as [|c calls IH]; intros env; [done|].
  cbv zeta. simpl. destruct (IH (run_call R c env)) as (H1 & H2 & H3 & H4 & H5).
  rewrite H1, H2, H3, H4, H5. destruct c as [a fs|]; simpl.
  - by destruct (step_buttons env a fs) as (-> & -> & -> & -> & -> & _).
  - by destruct (reset_buttons env) as (-> & -> & -> & -> & -> & _).
Qed.

(** X4: whether an action index is valid, and the mask it translates to, is
    settled at construction: after any sequence of [step] and [reset] calls,
    returning or raising, [step] translates every index as before. *)
Theorem translate_action_stable (calls : list call) env (i : Z) :
  translate_action R (run_calls R calls env) i = translate_action R env i.
Proof.
  destruct (run_calls_buttons calls env) as (Hb & Hd & Hn & _).
  unfold translate_action. by rewrite Hb, Hd, Hn.
Qed.

(** *** The state buffer *)

Lemma step_state_buffer env (i : Z) (fs : option Z) :
  state_buffer R (fst (step R env i fs)) = state_buffer R env \/
  exists maxed,
    state_buffer R (fst (step R env i fs)) =
      deque_append 4 (state_buffer R env) maxed.
Proof.
  destruct (translate_action R env i) as [e|mask] eqn:Htr.
  { left. by rewrite (step_translate_error _ _ _ _ _ Htr). }
  destruct (decide (0 < effective_frame_skip R env fs)%Z) as [Hpos|Hneg].
  - right. pose proof (step_success R env i fs mask Htr Hpos) as Hs.
    cbv zeta in Hs. rewrite Hs. simpl. eauto.
  - left. by rewrite (step_no_ticks R env i fs mask Htr) by lia.
Qed.

Lemma run_call_state_buffer (c : call) env :
  length (state_buffer R env) <= 4 ->
  length (state_buffer R env) <= length (state_buffer R (run_call R c env))
    <= 4.
Proof.
  intros Hle. destruct c as [a fs|]; simpl.
  - destruct (step_state_buffer env a fs) as [->|[maxed ->]]; [lia|].
    rewrite deque_append_length by done. lia.
  - destruct (reset_buttons env) as (_ & _ & _ & _ & _ & -> & _). lia.
Qed.

Lemma run_calls_state_buffer (calls : list call) env :
  length (state_buffer R env) <= 4 ->
  length (state_buffer R env)
    <= length (state_buffer R (run_calls R calls env)) <= 4.
Proof.
  revert env. induction calls as [|c calls IH]; intros env Hle; simpl; [lia|].
  pose proof (run_call_state_buffer c env Hle) as Hc.
  specialize (IH (run_call R c env) ltac:(lia)). lia.
Qed.

(** X5: the state buffer never holds more than 4 frames and never loses
    length: over any sequence of [step] and [reset] calls, returning or
    raising, a buffer of at most 4 frames ends no shorter and with at most
    4; in particular a full buffer stays full. *)
Theorem state_buffer_bounded (calls : list call) env :
  length (state_buffer R env) <= 4 ->
  length (state_buffer R env)
    <= length (state_buffer R (run_calls R calls env)) <= 4.
Proof. apply run_calls_state_buffer. Qed.

(** X6: after construction with a configured frame skip of at least 4,
    [get_state] returns four frames whatever calls of [step] and [reset]
    came before. *)
Theorem get_state_four_frames (config : Config)
    (base_buttons : list (option string)) (nb : nat)
    (actions : option (list (option string))) (name_arg : option string)
    (w initial : bool) (pl : nat) (movie : option string) (e : Emu R)
    (calls : list call) :
  (4 <= cfg_frame_skip config)%Z ->
  exists f1 f2 f3 f4,
    state_buffer R
      (run_calls R calls
         (init R config base_buttons nb actions name_arg w initial pl
            movie e)) = [f1; f2; f3; f4] /\
    get_state R
      (run_calls R calls
         (init R config base_buttons nb actions name_arg w initial pl
            movie e)) = inr (f1 ++ f2 ++ f3 ++ f4).
Proof.
  intros H4.
  set (env0 := init R config base_buttons nb actions name_arg w initial pl
                 movie e).
  assert (Hlen0 : length (state_buffer R env0) = 4).
  { unfold env0. rewrite init_state_buffer, length_replicate.
    unfold range_len. lia. }
  pose proof (run_calls_state_buffer calls env0 ltac:(lia)) as Hb.
  rewrite Hlen0 in Hb. clearbody env0. unfold get_state.
  destruct (state_buffer R (run_calls R calls env0))
    as [|f1 [|f2 [|f3 [|f4 [|f5 l]]]]]; simpl in Hb; try lia.
  exists f1, f2, f3, f4. split; [done|]. simpl. by rewrite app_nil_r.
Qed.

(** X7: the state [step] returns is the state of the adapter it leaves:
    [get_state] right after a returning [step] gives that same tensor. *)
Theorem get_state_after_step env (i : Z) (fs : option Z) env'
    (state : Frame R) (reward : Reward R) (done : bool)
    (info : option (Info R)) :
  step R env i fs = (env', inr (state, reward, done, info)) ->
  get_state R env' = inr state.
Proof.
  unfold step, get_state.
  destruct (translate_action R env i) as [e|mask]; [discriminate|].
  cbv zeta. destruct (stack _) as [e|stacked]; [discriminate|].
  destruct (cat _) as [e|st] eqn:Hcat; [discriminate|].
  intros [= <- <- _ _ _]. exact Hcat.
Qed.

(** X8: [reset] does not clear the frame stack nor the frame counter: the
    state right after a reset is the state before it, the last frames of the
    episode that ended. *)
Theorem reset_keeps_state env :
  get_state R (fst (reset R env)) = get_state R env /\
  frame R (fst (reset R env)) = frame R env.
Proof.
  destruct (reset_buttons env) as (_ & _ & _ & _ & _ & Hb & Hf).
  unfold get_state. by rewrite Hb, Hf.
Qed.

Lemma reset_episode_once env :
  episode R (fst (reset R env)) =
    match movie_path R env with
    | Some _ => (episode R env + 1)%Z
    | None => episode R env
    end.
Proof.
  unfold reset. destruct (movie_path R env); destruct (update_obs R _); done.
Qed.

(** X9: over [n] resets the episode counter advances by [n] when a
    recording directory is configured, and not at all when none is. *)
Theorem resets_episode_counter (n : nat) env :
  episode R (resets R n env) =
    match movie_path R env with
    | Some _ => (episode R env + Z.of_nat n)%Z
    | None => episode R env
    end.
Proof.
  revert env. induction n as [|n IH]; intros env.
  - simpl. destruct (movie_path R env); [lia|done].
  - change (resets R (S n) env) with (resets R n (fst (reset R env))).
    rewrite IH.
    destruct (reset_buttons env) as (_ & _ & _ & _ & -> & _).
    rewrite reset_episode_once.
    destruct (movie_path R env); [lia|done].
Qed.

(** *** Translation without a custom action list *)

Lemma index_lookup_NoDup {A} `{EqDecision A} (l : list A) (i : nat) (x : A) :
  NoDup l -> l !! i = Some x -> index x l = Some i.
Proof.
  intros Hnd Hx.
  assert (Hin : x ∈ l) by (apply list_elem_of_lookup; eauto).
  destruct (index_elem_of _ _ Hin) as (k & Hk & _).
  destruct (index_Some _ _ _ Hk) as [Hlk _].
  by rewrite Hk, (NoDup_lookup l k i x Hnd Hlk Hx).
Qed.

(** X10: when the reduced action set is the button list itself (no custom
    action list), the buttons are pairwise distinct and the base class has
    one mask entry per button, action [i] presses button [i]: the mask is 1
    at position [i] and 0 elsewhere. *)
Theorem translate_action_identity env (i : nat) :
  dream_buttons R env = buttons R env ->
  NoDup (buttons R env) ->
  num_buttons R env = length (buttons R env) ->
  i < length (buttons R env) ->
  translate_action R env (Z.of_nat i) =
    inr (<[i := 1%Z]> (replicate (num_buttons R env) 0%Z)).
Proof.
  intros Hd Hnd Hn Hi.
  destruct (lookup_lt_is_Some_2 (buttons R env) i Hi) as [name Hname].
  assert (Hget : getitem (dream_buttons R env) (Z.of_nat i) = inr name).
  { rewrite Hd. by apply getitem_nat. }
  assert (Hin : name ∈ buttons R env) by (apply list_elem_of_lookup; eauto).
  destruct (translate_action_known R env _ _ Hget Hin) as (k & Hk & _ & ->).
  rewrite (index_lookup_NoDup _ _ _ Hnd Hname) in Hk. injection Hk as <-.
  unfold one_hot. by rewrite decide_True by lia.
Qed.

(** *** The done flag and the raw steps *)

(** X11: when [step] returns with done false the repetition ran in full:
    the frame counter has advanced by the frame skip in force. *)
Theorem step_not_done_full_repetition env (i : Z) (fs : option Z) env'
    (state : Frame R) (reward : Reward R) (info : option (Info R)) :
  step R env i fs = (env', inr (state, reward, false, info)) ->
  frame R env' = (frame R env + effective_frame_skip R env fs)%Z.
Proof.
  intros Hstep.
  destruct (translate_action R env i) as [e|mask] eqn:Htr.
  { rewrite (step_translate_error _ _ _ _ _ Htr) in Hstep. discriminate. }
  destruct (decide (0 < effective_frame_skip R env fs)%Z) as [Hpos|Hneg].
  2: { rewrite (step_no_ticks R env i fs mask Htr) in Hstep by lia.
       discriminate. }
  pose proof (step_success R env i fs mask Htr Hpos) as Hs. cbv zeta in Hs.
  rewrite Hs in Hstep. injection Hstep as <- _ _ Hdone. simpl.
  set (n := range_len (effective_frame_skip R env fs)) in *.
  destruct (decide (length (executed R n mask (em R env)) < n)) as [Hlt|Hge].
  - exfalso.
    destruct (until_done_early R (raw_ticks R n mask (em R env)))
      as (x & Hx & Hd).
    + by rewrite raw_ticks_length.
    + unfold final_done, executed in Hdone. rewrite Hx in Hdone.
      simpl in Hdone. congruence.
  - pose proof (executed_length R n mask (em R env)) as Hle.
    unfold n, range_len in *. lia.
Qed.

Lemma retro_steps_spec (n : nat) mask env :
  retro_steps R n mask env =
    set_em R (final_em R (em R env) (raw_ticks R n mask (em R env))) env.
Proof.
  revert env. induction n as [|n IH]; intros env.
  - by destruct env.
  - simpl. unfold retro_step' at 1.
    destruct (retro_step R (em R env) mask) as [[[[e' ob] r] d] inf] eqn:Hs.
    simpl. rewrite IH. unfold set_em, final_em. simpl. f_equal.
    apply (last_cons_from_option (tick_em R) _ (e', r, d)).
Qed.

(** X12: what [step] does to the emulator is what its executed ticks do
    as plain [retro_step] calls with the translated mask; [retro_step] alone
    moves neither the frame counter nor the state buffer. *)
Theorem step_as_retro_steps env (i : Z) (fs : option Z) mask :
  translate_action R env i = inr mask ->
  let k := length (executed R (range_len (effective_frame_skip R env fs))
                     mask (em R env)) in
  em R (fst (step R env i fs)) = em R (retro_steps R k mask env) /\
  frame R (retro_steps R k mask env) = frame R env /\
  state_buffer R (retro_steps R k mask env) = state_buffer R env.
Proof.
  intros Htr k. rewrite retro_steps_spec. simpl.
  split; [|done].
  unfold k. rewrite <- executed_raw.
  destruct (decide (0 < effective_frame_skip R env fs)%Z) as [Hpos|Hneg].
  - pose proof (step_success R env i fs mask Htr Hpos) as Hs.
    cbv zeta in Hs. by rewrite Hs.
  - rewrite (step_no_ticks R env i fs mask Htr) by lia. simpl.
    replace (range_len (effective_frame_skip R env fs)) with 0
      by (unfold range_len; lia).
    done.
Qed.

End DreamEnvMore.

(* ===================================================================== *)
(** ** More on the optimisation step *)
(* ===================================================================== *)

Section DQNMore.
Import Py DQN.
Context (T : Torch).

Implicit Types (self : DQN.t T) (transitions : list (transition T)).

Lemma expected_tape self (mask : list bool) (nfns : list (State T))
    (rewards : list (Scalar T)) (batch_size : Z) (gamma : Scalar T)
    (expected : tracked T) :
  expected_state_action_values T self mask nfns rewards batch_size gamma
    = inr expected ->
  tape T expected = [].
Proof.
  unfold expected_state_action_values.
  destruct (mapM _ nfns) as [e|maxima]; simpl; [discriminate|].
  unfold masked_assign. destruct (decide _); simpl; [|discriminate].
  by intros [= <-].
Qed.

Lemma optimize_batch_target self (optimizer : OptState T) transitions
    (batch_size : Z) (gamma : Scalar T) (o : outcome T) :
  optimize_batch T self optimizer transitions batch_size gamma = inr o ->
  target_net T (out_self T o) = target_net T self /\
  target_grad T (out_self T o) = target_grad T self.
Proof.
  intros Ho.
  destruct (optimize_batch_inv T _ _ _ _ _ _ Ho)
    as (nfns & q & expected & _ & _ & Hex & _ & _ & Hnet & Hgrad).
  split; [done|]. apply Hgrad.
  rewrite (expected_tape _ _ _ _ _ _ _ Hex). apply not_elem_of_nil.
Qed.

Lemma optimize_model_target self (optimizer : OptState T)
    (mem : ReplayMemory T) (batch_size : Z) (gamma : Scalar T)
    (w w' : World T) (self' : DQN.t T) (optimizer' : OptState T)
    (value : option (Scalar T)) :
  optimize_model T self optimizer mem batch_size gamma w =
    (w', inr (self', optimizer', value)) ->
  target_net T self' = target_net T self /\
  target_grad T self' = target_grad T self.
Proof.
  unfold optimize_model.
  destruct (len T mem <? batch_size)%Z; [by intros [= _ <- _ _]|].
  destruct (sample T mem batch_size w) as [w1 [e|transitions]]; simpl;
    [discriminate|].
  destruct (optimize_batch T self optimizer transitions batch_size gamma)
    as [e|o] eqn:Ho; simpl; [discriminate|].
  intros [= _ <- _ _]. by apply (optimize_batch_target _ _ _ _ _ _ Ho).
Qed.

(** X13: [optimize_model] never touches the target network: whenever it
    returns, with or without an optimisation step, the parameters of
    [target_net] and their gradients are as they were. *)
Theorem optimize_model_keeps_target self (optimizer : OptState T)
    (mem : ReplayMemory T) (batch_size : Z) (gamma : Scalar T)
    (w w' : World T) (self' : DQN.t T) (optimizer' : OptState T)
    (value : option (Scalar T)) :
  optimize_model T self optimizer mem batch_size gamma w =
    (w', inr (self', optimizer', value)) ->
  target_net T self' = target_net T self /\
  target_grad T self' = target_grad T self.
Proof. apply optimize_model_target. Qed.

(** X14: past the guard [memory.sample] is called exactly once per call
    of [optimize_model], also when the step then raises. *)
Theorem optimize_model_samples_once self (optimizer : OptState T)
    (mem : ReplayMemory T) (batch_size : Z) (gamma : Scalar T)
    (w : World T) :
  (batch_size <= len T mem)%Z ->
  sample_calls T
    (fst (optimize_model T self optimizer mem batch_size gamma w))
    = S (sample_calls T w).
Proof.
  intros Hlen. unfold optimize_model, sample.
  destruct (Z.ltb_spec (len T mem) batch_size) as [Hlt|_]; [lia|].
  destruct (_ || _); simpl; [done|].
  by destruct (random_sample T _ _ _).
Qed.

(** X15: a sampled batch in which every transition ends its episode (no
    next state at all) makes [optimize_model] raise RuntimeError, from
    [torch.cat] of the empty list of next states, instead of taking the
    targets to be the rewards. *)
Theorem optimize_model_all_terminal self (optimizer : OptState T)
    (mem : ReplayMemory T) (batch_size : Z) (gamma : Scalar T)
    (w w1 : World T) transitions :
  (batch_size <= len T mem)%Z ->
  sample T mem batch_size w = (w1, inr transitions) ->
  transitions <> [] ->
  (forall tr', tr' ∈ transitions -> next_state tr' = None) ->
  optimize_model T self optimizer mem batch_size gamma w =
    (w1, inl RuntimeError).
Proof.
  intros Hlen Hsample Hne Hall. unfold optimize_model.
  destruct (Z.ltb_spec (len T mem) batch_size) as [Hlt|_]; [lia|].
  rewrite Hsample. simpl. f_equal.
  unfold optimize_batch, transpose.
  destruct transitions as [|tr0 trs]; [done|].
  cbn [bind ret]. unfold non_final_next_states.
  assert (Hnil : omap id (map next_state (tr0 :: trs)) = []).
  { clear Hsample Hne. induction (tr0 :: trs) as [|x l IH]; [done|].
    simpl. rewrite (Hall x) by apply list_elem_of_here. simpl.
    apply IH. intros y Hy. apply Hall. by apply list_elem_of_further. }
  by rewrite Hnil.
Qed.

Lemma gather_row_error (row : list (Scalar T)) (a : Z) (e : exn) :
  gather_row T row a = inl e -> e = RuntimeError.
Proof.
  unfold gather_row. destruct (_ && _)%Z; [|by intros [= <-]].
  destruct (row !! Z.to_nat a); [discriminate|by intros [= <-]].
Qed.

Lemma gather_row_out_of_range (row : list (Scalar T)) (a : Z) :
  (a < 0 \/ Z.of_nat (length row) <= a)%Z ->
  gather_row T row a = inl RuntimeError.
Proof.
  intros Ha. unfold gather_row.
  destruct (Z.leb_spec 0 a); simpl; [|done].
  destruct (Z.ltb_spec a (Z.of_nat (length row))); simpl; [lia|done].
Qed.

Lemma zipM_map_fail {A B C D} (f : B -> C -> result D) (a : A -> B)
    (b : A -> C) (l : list A) (x : A) :
  (forall y e, f (a y) (b y) = inl e -> e = RuntimeError) ->
  x ∈ l -> f (a x) (b x) = inl RuntimeError ->
  zipM f (map a l) (map b l) = inl RuntimeError.
Proof.
  intros Herr Hin Hx. induction l as [|y l IH]; [by apply elem_of_nil in Hin|].
  simpl. destruct (f (a y) (b y)) as [e|z] eqn:Hy; simpl.
  - by rewrite (Herr _ _ Hy).
  - apply elem_of_cons in Hin as [->|Hin]; [congruence|].
    by rewrite (IH Hin).
Qed.

(** X16: an action index outside the action values of the policy network,
    in any transition of the batch, makes the step raise RuntimeError (from
    [gather]) before any gradient is computed. *)
Theorem optimize_batch_action_out_of_range self (optimizer : OptState T)
    transitions (batch_size : Z) (gamma : Scalar T) (bad : transition T) :
  (exists tr', tr' ∈ transitions /\ next_state tr' <> None) ->
  bad ∈ transitions ->
  (action bad < 0 \/
   Z.of_nat (length (forward T (policy_net T self) (state bad)))
     <= action bad)%Z ->
  optimize_batch T self optimizer transitions batch_size gamma
    = inl RuntimeError.
Proof.
  intros Hsome Hin Hbad. unfold optimize_batch, transpose.
  pose proof (non_final_next_states_some T _ Hsome) as Hnf.
  destruct transitions as [|tr0 trs]; [by apply elem_of_nil in Hin|].
  cbn [bind ret]. rewrite Hnf. cbn [bind].
  unfold state_action_values.
  rewrite (zipM_map_fail
             (fun s a => gather_row T (forward T (policy_net T self) s) a)
             state action (tr0 :: trs) bad); [done| |done|].
  - intros y e. apply gather_row_error.
  - by apply gather_row_out_of_range.
Qed.

(** X17: a step that completes hands the optimizer the clamped gradient of
    this batch: the gradient [loss.backward()] leaves on the policy
    parameters, added to what [zero_grad] made of an earlier gradient, goes
    through [clamp_(-1, 1)] before [optimizer.step()], and the policy
    parameters become what that step returns. *)
Theorem optimize_batch_clamps_gradient self (optimizer : OptState T)
    transitions (batch_size : Z) (gamma : Scalar T) (o : outcome T) :
  optimize_batch T self optimizer transitions batch_size gamma = inr o ->
  let fresh :=
    autograd T PolicyNet (policy_net T self) (target_net T self)
      transitions gamma in
  let g :=
    match policy_grad T self with
    | None => fresh
    | Some old => gacc T (gzero T old) fresh
    end in
  policy_grad T (out_self T o) = Some (gclamp T g) /\
  (out_optimizer T o, policy_net T (out_self T o)) =
    optimizer_step T optimizer (policy_net T self) (Some (gclamp T g)).
Proof.
  unfold optimize_batch, transpose.
  destruct transitions as [|tr0 trs]; [discriminate|].
  set (transitions := tr0 :: trs).
  cbn [bind ret].
  destruct (non_final_next_states T _) as [e|nfns]; cbn [bind];
    [discriminate|].
  destruct (state_action_values T self _ _) as [e|q] eqn:Hq; cbn [bind];
    [discriminate|].
  destruct (expected_state_action_values T self _ _ _ _ _)
    as [e|expected] eqn:Hex; cbn [bind]; [discriminate|].
  unfold huber_loss, clamp_grads, backward, zero_grad.
  cbn [policy_grad policy_net target_net target_grad].
  rewrite (state_action_values_tape T _ _ _ _ Hq).
  rewrite bool_decide_eq_true_2 by (apply list_elem_of_here).
  destruct (policy_grad T self) as [old|]; cbn [fmap option_fmap option_map
    accumulate]; unfold ret; cbn [bind policy_net policy_grad];
    destruct (optimizer_step T _ _ _) as [optimizer' params'] eqn:Hopt;
    intros [= <-]; cbn [out_self out_optimizer policy_grad policy_net];
    by rewrite <- Hopt.
Qed.

End DQNMore.

(* ===================================================================== *)
(** ** [DQN_Model.train] *)
(* ===================================================================== *)

Section DQNTrainFacts.
Import Py DQN.
Context (T : Torch) (G : Gym T).

Implicit Types (v : train_vars T G).

Lemma train_body_inv (n t_ : Z) v v' (done : bool) :
  train_body T G n t_ v = inr (v', done) ->
  tv_steps_done T G v' = (tv_steps_done T G v + 1)%Z /\
  target_net T (tv_self T G v') = target_net T (tv_self T G v) /\
  target_grad T (tv_self T G v') = target_grad T (tv_self T G v) /\
  tv_episode_durations T G v' =
    if done then tv_episode_durations T G v ++ [(t_ + 1)%Z]
    else tv_episode_durations T G v.
Proof.
  unfold train_body.
  destruct (random G _) as [g1 sample_].
  set (chosen :=
    if fgt G sample_ _ then _ else _).
  destruct chosen as [e|[g action_]]; cbn [bind]; [discriminate|].
  destruct (zeros_set_one 9 action_) as [e|retro_action]; cbn [bind];
    [discriminate|].
  destruct (env_step G _ retro_action) as [[env1 reward_] d].
  destruct (optimize_model T _ _ _ _ _ _)
    as [w1 [e|[[self1 optimizer1] value]]] eqn:Hopt; cbn [bind];
    [discriminate|].
  intros [= <- <-]. cbn [tv_steps_done tv_self tv_episode_durations].
  destruct (optimize_model_target T _ _ _ _ _ _ _ _ _ _ Hopt) as [Hn Hg].
  done.
Qed.

Lemma train_loop_inv (fuel : nat) (n t_ : Z) v v' (broke : bool) :
  train_loop T G fuel n t_ v = inr (v', broke) ->
  target_net T (tv_self T G v') = target_net T (tv_self T G v) /\
  target_grad T (tv_self T G v') = target_grad T (tv_self T G v) /\
  exists k : nat,
    k <= fuel /\
    tv_steps_done T G v' = (tv_steps_done T G v + Z.of_nat k)%Z /\
    if broke then
      0 < k /\
      tv_episode_durations T G v' =
        tv_episode_durations T G v ++ [(t_ + Z.of_nat k)%Z]
    else
      k = fuel /\ tv_episode_durations T G v' = tv_episode_durations T G v.
Proof.
  revert t_ v. induction fuel as [|fuel IH]; intros t_ v; simpl.
  - intros [= <- <-]. do 2 (split; [done|]). exists 0.
    split; [lia|]. split; [lia|done].
  - destruct (train_body T G n t_ v) as [e|[v1 d]] eqn:Hbody; cbn [bind];
      [discriminate|].
    destruct (train_body_inv _ _ _ _ _ Hbody) as (Hs & Hn & Hg & Hd).
    cbn [fst snd]. destruct d.
    + intros [= <- <-]. do 2 (split; [done|]). exists 1.
      split; [lia|]. split; [lia|]. split; [lia|done].
    + intros Hrest.
      destruct (IH _ _ Hrest) as (Hn' & Hg' & k & Hk & Hs' & Hb).
      split; [congruence|]. split; [congruence|]. exists (S k).
      split; [lia|]. split; [lia|].
      destruct broke.
      * destruct Hb as [Hpos Hdur]. split; [lia|].
        rewrite Hdur, Hd. do 2 f_equal. lia.
      * destruct Hb as [-> Hdur]. split; [done|]. by rewrite Hdur, Hd.
Qed.

Lemma train_episode_inv (fuel : nat) (n i_episode : Z) v v' :
  train_episode T G fuel n i_episode v = inr (v', true) ->
  (exists d : Z,
     (0 < d)%Z /\
     tv_steps_done T G v' = (tv_steps_done T G v + d)%Z /\
     tv_episode_durations T G v' = tv_episode_durations T G v ++ [d]) /\
  target_net T (tv_self T G v') =
    (if (i_episode mod target_update =? 0)%Z
     then policy_net T (tv_self T G v')
     else target_net T (tv_self T G v)) /\
  target_grad T (tv_self T G v') = target_grad T (tv_self T G v).
Proof.
  unfold train_episode.
  destruct (train_loop T G fuel n 0 _) as [e|[v1 broke]] eqn:Hloop;
    cbn [bind]; [discriminate|].
  destruct broke; [|discriminate].
  destruct (train_loop_inv _ _ _ _ _ _ Hloop)
    as (Hn & Hg & k & _ & Hs & Hpos & Hd).
  cbn [tv_self tv_steps_done tv_episode_durations] in Hn, Hg, Hs, Hd.
  intros [= <-]. cbn [tv_self tv_steps_done tv_episode_durations].
  split.
  - exists (Z.of_nat k). split; [lia|]. split; [done|].
    rewrite Hd. do 2 f_equal.
  - destruct (i_episode mod target_update =? 0)%Z; simpl; by rewrite ?Hn, ?Hg.
Qed.

Lemma train_episodes_inv (fuel : nat) (n : Z) (count : nat) (i_episode : Z)
    v v' :
  train_episodes T G fuel n count i_episode v = inr (v', true) ->
  exists ds : list Z,
    length ds = count /\
    Forall (fun d => 0 < d)%Z ds /\
    tv_episode_durations T G v' = tv_episode_durations T G v ++ ds /\
    tv_steps_done T G v' = (tv_steps_done T G v + foldr Z.add 0 ds)%Z.
Proof.
  revert i_episode v. induction count as [|count IH]; intros i_episode v;
    simpl.
  - intros [= <-]. exists []. rewrite app_nil_r. simpl.
    split; [done|]. split; [constructor|]. split; [done|lia].
  - destruct (train_episode T G fuel n i_episode v) as [e|[v1 ended]]
      eqn:Hep; cbn [bind]; [discriminate|].
    cbn [fst snd]. destruct ended; [|discriminate].
    destruct (train_episode_inv _ _ _ _ _ Hep)
      as ((d & Hpos & Hs & Hd) & _).
    intros Hrest.
    destruct (IH _ _ Hrest) as (ds & Hlen & Hall & Hd' & Hs').
    exists (d :: ds). split; [simpl; lia|]. split; [by constructor|].
    split.
    + by rewrite Hd', Hd, <- app_assoc.
    + rewrite Hs', Hs. simpl. lia.
Qed.

(** X18: in [DQN_Model.train] the counter [steps_done] counts the
    environment steps: when all the episodes have ended there are 50
    recorded durations, each of at least one step, and [steps_done] is
    their sum. *)
Theorem train_steps_done_total (fuel : nat) (env : Env G) (w : World T) v :
  train T G fuel env w = inr (v, true) ->
  length (tv_episode_durations T G v) = 50 /\
  Forall (fun d => 0 < d)%Z (tv_episode_durations T G v) /\
  tv_steps_done T G v = foldr Z.add 0%Z (tv_episode_durations T G v).
Proof.
  unfold train.
  destruct (screen_shape G _) as [screen_height screen_width].
  destruct (new_network G (rng T w) _ _ _) as [g1 policy].
  destruct (new_network G g1 _ _ _) as [g2 target].
  destruct (train_episodes T G fuel _ num_episodes 0 _)
    as [e|[v1 finished]] eqn:Hrun; cbn [bind]; [discriminate|].
  destruct finished; [|discriminate].
  destruct (train_episodes_inv _ _ _ _ _ _ Hrun)
    as (ds & Hlen & Hall & Hd & Hs).
  cbn [tv_episode_durations tv_steps_done] in Hd, Hs.
  intros [= <-]. cbn [tv_episode_durations tv_steps_done].
  rewrite Hd, Hs. simpl. done.
Qed.

(** X19: over an episode of [DQN_Model.train] that ends, the target
    network changes only by the copy at the end: after the episode it holds
    the policy parameters when the episode number is a multiple of 10, and
    what it held before the episode otherwise, however many optimisation
    steps the episode took. *)
Theorem train_episode_target (fuel : nat) (n i_episode : Z) v v' :
  train_episode T G fuel n i_episode v = inr (v', true) ->
  target_net T (tv_self T G v') =
    if (i_episode mod 10 =? 0)%Z
    then policy_net T (tv_self T G v')
    else target_net T (tv_self T G v).
Proof.
  intros Hep. by destruct (train_episode_inv _ _ _ _ _ Hep) as (_ & Hn & _).
Qed.

End DQNTrainFacts.

(* ===================================================================== *)
(** ** More on the trainer *)
(* ===================================================================== *)

Section TrainerMore.
Import Py Trainer.
Context (P : Runtime) (U : Setup P).

Implicit Types (v : vars P).




(** *** How often an action is decided *)

Lemma episode_loop_decisions (fuel : nat) (t_ : Z) v v' :
  (0 <= t_)%Z ->
  episode_loop P fuel t_ v = inr (v', false) ->
  Z.of_nat (length (decisions P (self P v'))) =
    (Z.of_nat (length (decisions P (self P v)))
     + ((t_ + Z.of_nat fuel + 3) / 4 - (t_ + 3) / 4))%Z.
Proof.
  revert t_ v. induction fuel as [|fuel IH]; intros t_ v Ht;
    cbn [episode_loop].
  - intros [= <-]. change (Z.of_nat 0) with 0%Z. rewrite Z.add_0_r. lia.
  - destruct (loop_body P t_ v) as [e|[v1 d]] eqn:Hbody; cbn [bind];
      [discriminate|].
    cbn [fst snd]. destruct d; [discriminate|].
    intros Hrest. rewrite (IH (t_ + 1)%Z _ ltac:(lia) Hrest).
    destruct (loop_body_steps_done P _ _ _ _ Hbody) as [_ Hd].
    rewrite Hd, length_app. unfold FRAME_SKIP.
    rewrite Nat2Z.inj_succ.
    replace (t_ + 1 + Z.of_nat fuel + 3)%Z
      with (t_ + Z.succ (Z.of_nat fuel) + 3)%Z by lia.
    destruct (Z.eqb_spec (t_ mod 4) 0) as [Hm|Hm]; simpl length.
    + assert ((t_ + 1 + 3) / 4 = (t_ + 3) / 4 + 1)%Z
        by (Z.to_euclidean_division_equations; lia).
      lia.
    + assert ((t_ + 1 + 3) / 4 = (t_ + 3) / 4)%Z
        by (Z.to_euclidean_division_equations; lia).
      lia.
Qed.

(** X21: an action is decided once before the loop and then at every
    fourth iteration, the action of the last decision being repeated in
    between: an episode still running after [n] iterations has taken
    [1 + ceil(n / 4)] decisions. *)
Theorem run_episode_decisions (n : nat) v v' :
  run_episode P n v = inr (v', false) ->
  length (decisions P (self P v')) =
    length (decisions P (self P v)) + 1 + (n + 3) / 4.
Proof.
  unfold run_episode. intros Hrun.
  pose proof (episode_loop_decisions n 0%Z _ _ ltac:(lia) Hrun) as Hd.
  destruct (episode_start_steps_done P v) as [_ Hd0].
  rewrite Hd0, length_app in Hd. simpl length in Hd.
  change ((0 + 3) / 4)%Z with 0%Z in Hd.
  assert (Z.of_nat ((n + 3) / 4) = (0 + Z.of_nat n + 3) / 4)%Z.
  { rewrite Nat2Z.inj_div. f_equal. lia. }
  lia.
Qed.

End TrainerMore.

(* ===================================================================== *)
(** ** The shapes of [NoisyNetDQN] *)
(* ===================================================================== *)

Section NoisyNetFacts.
Import Py NoisyNetDQN.

(** Linear arithmetic with division by the strides. *)
Ltac div_lia := Z.to_euclidean_division_equations; lia.

Lemma conv_extent_ok (k s size : Z) :
  (k <= size)%Z -> conv_extent k s size = inr ((size - k) / s + 1)%Z.
Proof.
  intros H. unfold conv_extent. by destruct (Z.ltb_spec size k); [lia|].
Qed.

Lemma conv_extent_small (k s size : Z) :
  (size < k)%Z -> conv_extent k s size = inl RuntimeError.
Proof.
  intros H. unfold conv_extent. by destruct (Z.ltb_spec size k); [|lia].
Qed.

(** The spatial extent after the three convolutions. *)
Lemma features_extent (size : Z) :
  (36 <= size)%Z ->
  ((((size - 8) / 4 + 1 - 4) / 2 + 1 - 3) / 1 + 1 = (size - 36) / 8 + 1)%Z.
Proof.
  intros H. rewrite Z.div_1_r. div_lia.
Qed.

Lemma features_ok (b c h w : Z) :
  (36 <= h)%Z -> (36 <= w)%Z ->
  features c [b; c; h; w] =
    inr [b; 64; (h - 36) / 8 + 1; (w - 36) / 8 + 1]%Z.
Proof.
  intros Hh Hw. unfold features, conv2d. rewrite Z.eqb_refl.
  rewrite !conv_extent_ok by div_lia. cbn [bind ret].
  rewrite !conv_extent_ok by div_lia. cbn [bind ret Z.eqb Pos.eqb].
  rewrite !conv_extent_ok by div_lia. cbn [bind ret].
  by rewrite !features_extent by done.
Qed.

Lemma features_small (b c h w : Z) :
  (h < 36 \/ w < 36)%Z -> features c [b; c; h; w] = inl RuntimeError.
Proof.
  intros Hsmall. unfold features, conv2d. rewrite Z.eqb_refl.
  destruct (Z.lt_ge_cases h 8); [by rewrite conv_extent_small|].
  rewrite (conv_extent_ok 8 4 h) by done. cbn [bind].
  destruct (Z.lt_ge_cases w 8); [by rewrite conv_extent_small|].
  rewrite (conv_extent_ok 8 4 w) by done. cbn [bind ret Z.eqb Pos.eqb].
  destruct (Z.lt_ge_cases h 20); [by rewrite conv_extent_small by div_lia|].
  rewrite (conv_extent_ok 4 2 ((h - 8) / 4 + 1)) by div_lia. cbn [bind].
  destruct (Z.lt_ge_cases w 20); [by rewrite conv_extent_small by div_lia|].
  rewrite (conv_extent_ok 4 2 ((w - 8) / 4 + 1)) by div_lia.
  cbn [bind ret Z.eqb Pos.eqb].
  destruct (Z.lt_ge_cases h 36); [by rewrite conv_extent_small by div_lia|].
  rewrite (conv_extent_ok 3 1 (((h - 8) / 4 + 1 - 4) / 2 + 1)) by div_lia.
  cbn [bind].
  by rewrite conv_extent_small by div_lia.
Qed.

Lemma view_infer_exact (x : shape) (known q : Z) :
  known <> 0%Z -> numel x = (q * known)%Z -> view_infer x known = inr q.
Proof.
  intros Hk Hn. unfold view_infer. rewrite Hn.
  destruct (Z.eqb_spec known 0); [done|].
  rewrite Z.mod_mul by done. simpl. by rewrite Z.div_mul.
Qed.

Lemma init_feature_size_aux (c h w actions atoms : Z) :
  ((36 <= h)%Z /\ (36 <= w)%Z ->
   init (c, h, w) actions atoms =
     inr {| input_shape := (c, h, w);
            num_actions := actions;
            num_atoms := atoms;
            feature_size :=
              (64 * ((h - 36) / 8 + 1) * ((w - 36) / 8 + 1))%Z |}) /\
  ((h < 36)%Z \/ (w < 36)%Z ->
   init (c, h, w) actions atoms = inl RuntimeError).
Proof.
  split.
  - intros [Hh Hw]. unfold init. rewrite features_ok by done. cbn [bind].
    rewrite (view_infer_exact _ 1
               (64 * ((h - 36) / 8 + 1) * ((w - 36) / 8 + 1))%Z);
      [done|done|].
    unfold numel. simpl foldr. ring.
  - intros Hsmall. unfold init. by rewrite features_small.
Qed.

(** X22: a [NoisyNetDQN] can be built exactly for inputs of at least
    36 by 36 pixels: below that one of the three convolutions meets an input
    smaller than its kernel and the constructor raises; from there on the
    feature size is [64 * ((h - 36) / 8 + 1) * ((w - 36) / 8 + 1)], 3136
    for 84 by 84. *)
Theorem init_feature_size (c h w actions atoms : Z) :
  (0 < c)%Z -> (0 < actions)%Z -> (0 < atoms)%Z ->
  ((36 <= h)%Z /\ (36 <= w)%Z ->
   init (c, h, w) actions atoms =
     inr {| input_shape := (c, h, w);
            num_actions := actions;
            num_atoms := atoms;
            feature_size :=
              (64 * ((h - 36) / 8 + 1) * ((w - 36) / 8 + 1))%Z |}) /\
  ((h < 36)%Z \/ (w < 36)%Z ->
   init (c, h, w) actions atoms = inl RuntimeError).
Proof. intros _ _ _. apply init_feature_size_aux. Qed.

(** X23: for a network built for [(c, h, w)] and a batch of [b >= 1]
    inputs of that shape, [forward] returns one value per action, shape
    [b, num_actions], when there is a single atom, and one distribution of
    [num_atoms] values per action, shape [b, num_actions, num_atoms],
    when there are several. *)
Theorem forward_shape (c h w actions atoms b : Z) (net : NoisyNetDQN.t) :
  (0 < c)%Z -> (0 < actions)%Z -> (0 < atoms)%Z -> (0 < b)%Z ->
  init (c, h, w) actions atoms = inr net ->
  forward net [b; c; h; w] =
    inr (if (1 <? atoms)%Z then [b; actions; atoms] else [b; actions]).
Proof.
  intros Hc Ha Hn Hb Hinit.
  destruct (Z.lt_ge_cases h 36) as [Hh|Hh].
  { rewrite (proj2 (init_feature_size_aux c h w actions atoms)) in Hinit
      by lia. discriminate. }
  destruct (Z.lt_ge_cases w 36) as [Hw|Hw].
  { rewrite (proj2 (init_feature_size_aux c h w actions atoms)) in Hinit
      by lia. discriminate. }
  rewrite (proj1 (init_feature_size_aux c h w actions atoms)) in Hinit
    by lia.
  injection Hinit as <-. unfold forward. cbn [input_shape fst].
  rewrite features_ok by done. cbn [bind ret].
  set (f := (64 * ((h - 36) / 8 + 1) * ((w - 36) / 8 + 1))%Z).
  rewrite (view_infer_exact _ b f); [|lia|unfold numel, f; simpl foldr; ring].
  cbn [bind feature_size num_actions num_atoms]. unfold noisy.
  rewrite Z.eqb_refl. cbn [bind ret Z.eqb Pos.eqb].
  destruct (Z.ltb_spec 1 atoms) as [Hmany|Hone].
  - rewrite (view_infer_exact _ atoms (b * actions)%Z);
      [|lia|unfold numel; simpl foldr; ring].
    cbn [bind].
    rewrite (view_infer_exact _ (actions * atoms) b)%Z;
      [done|nia|unfold numel; simpl foldr; ring].
  - replace atoms with 1%Z by lia. by rewrite Z.mul_1_r.
Qed.

End NoisyNetFacts.

(* ===================================================================== *)
(** ** [get_screen] *)
(* ===================================================================== *)

Section ScreenFacts.
Import Screen.
Context {Px F : Type} (div255 : Px -> F).

Lemma omap_lookup_regular {A} (rows : list (list A)) (c w : nat) :
  (forall px, px ∈ rows -> c < length px) ->
  omap (fun px => px !! c) rows !! w =
    match rows !! w with
    | Some px => px !! c
    | None => None
    end.
Proof.
  revert w. induction rows as [|px rows IH]; intros w Hreg; [done|].
  destruct (lookup_lt_is_Some_2 px c (Hreg px (list_elem_of_here _ _)))
    as [x Hx].
  cbn [omap list_omap]. rewrite Hx.
  destruct w as [|w]; simpl; [done|].
  apply IH. intros px' Hin. apply Hreg. by apply list_elem_of_further.
Qed.

Lemma omap_length_regular {A} (rows : list (list A)) (c : nat) :
  (forall px, px ∈ rows -> c < length px) ->
  length (omap (fun px => px !! c) rows) = length rows.
Proof.
  induction rows as [|px rows IH]; intros Hreg; [done|].
  destruct (lookup_lt_is_Some_2 px c (Hreg px (list_elem_of_here _ _)))
    as [x Hx].
  cbn [omap list_omap]. rewrite Hx. simpl. f_equal.
  apply IH. intros px' Hin. apply Hreg. by apply list_elem_of_further.
Qed.

(** X24: for a render of [height] rows of [width] pixels with [channels]
    values each, [get_screen] returns one tensor of [channels] planes of
    [height] rows of [width] floats, the render's own resolution (the resize
    to 40 is never applied), and the float at plane [c], row [h], column [w]
    is the render's value at row [h], column [w], channel [c], divided by
    255. *)
Theorem get_screen_layout (channels height width : nat) (render : image) :
  length render = height ->
  (forall row, row ∈ render -> length row = width) ->
  (forall row px, row ∈ render -> px ∈ row -> length px = channels) ->
  exists screen : chw,
    get_screen div255 channels render = [screen] /\
    length screen = channels /\
    (forall plane, plane ∈ screen ->
       length plane = height /\
       forall row, row ∈ plane -> length row = width) /\
    (forall c h w, c < channels ->
       at3 screen c h w = div255 <$> at3 render h w c).
Proof.
  unfold image, chw in *. intros Hh Hw Hc. eexists. split; [reflexivity|].
  unfold transpose_201. split; [by rewrite !length_map, length_seq|].
  split.
  - intros plane Hin.
    apply list_elem_of_fmap in Hin as (plane0 & -> & Hin).
    apply list_elem_of_fmap in Hin as (c & -> & Hin).
    apply elem_of_seq in Hin. rewrite !length_map. split; [done|].
    intros row Hrow.
    apply list_elem_of_fmap in Hrow as (row0 & -> & Hrow).
    apply list_elem_of_fmap in Hrow as (row1 & -> & Hrow).
    rewrite length_map, omap_length_regular; [by apply Hw|].
    intros px Hpx. rewrite (Hc row1 px Hrow Hpx). lia.
  - intros c h w Hlt. unfold at3.
    rewrite !list_lookup_fmap, lookup_seq_lt by done. simpl.
    rewrite !list_lookup_fmap.
    destruct (render !! h) as [row|] eqn:Hrow; cbn; [|reflexivity].
    rewrite list_lookup_fmap. rewrite omap_lookup_regular.
    + by destruct (row !! w).
    + intros px Hpx.
      rewrite (Hc row px (list_elem_of_lookup_2 _ _ _ Hrow) Hpx). lia.
Qed.

End ScreenFacts.

(* ===================================================================== *)
(** ** The further statements at concrete inputs *)
(* ===================================================================== *)

Section ConcreteMore.
Import Py.

Lemma step_index_out_of_range_witness :
  (Z.of_nat (length (DreamEnv.dream_buttons Toy.retro (Toy.nes_env 4 None)))
     <= 4)%Z /\
  DreamEnv.step Toy.retro (Toy.nes_env 4 None) 4 None
    = (Toy.nes_env 4 None, inl IndexError).
Proof.
  split; [vm_compute; discriminate|].
  apply step_index_out_of_range. right. vm_compute. discriminate.
Defined.

Lemma step_negative_index_witness :
  (- Z.of_nat (length (DreamEnv.dream_buttons Toy.retro
                         (Toy.nes_env 4 None))) <= -1 < 0)%Z /\
  DreamEnv.step Toy.retro (Toy.nes_env 4 None) (-1) None
    = DreamEnv.step Toy.retro (Toy.nes_env 4 None) 3 None.
Proof.
  split; [vm_compute; split; [discriminate|reflexivity]|].
  apply (step_negative_index Toy.retro (Toy.nes_env 4 None) (-1) None).
  vm_compute. split; [discriminate|reflexivity].
Defined.

Lemma step_nonpositive_frame_skip_witness :
  DreamEnv.translate_action Toy.retro (Toy.nes_env 4 None) 0
    = inr [0; 0; 0; 0; 0; 0; 1; 0; 0]%Z /\
  DreamEnv.step Toy.retro (Toy.nes_env 4 None) 0 (Some 0%Z)
    = (Toy.nes_env 4 None, inl RuntimeError).
Proof.
  split; [reflexivity|].
  apply (step_nonpositive_frame_skip Toy.retro (Toy.nes_env 4 None) 0
           (Some 0%Z) [0; 0; 0; 0; 0; 0; 1; 0; 0]%Z eq_refl).
  vm_compute. discriminate.
Defined.

Lemma state_buffer_bounded_witness :
  length (DreamEnv.state_buffer Toy.retro (Toy.genesis_env 2)) <= 4 /\
  2 <= length (DreamEnv.state_buffer Toy.retro
                 (DreamEnv.run_calls Toy.retro
                    [DreamEnv.CallStep 0 None; DreamEnv.CallReset;
                     DreamEnv.CallStep 7 None; DreamEnv.CallStep 1 None;
                     DreamEnv.CallStep 2 (Some 1%Z)]
                    (Toy.genesis_env 2))) <= 4.
Proof.
  split; [vm_compute; lia|].
  apply (state_buffer_bounded Toy.retro _ (Toy.genesis_env 2)).
  vm_compute. lia.
Defined.

Lemma get_state_four_frames_witness :
  (4 <= DreamEnv.cfg_frame_skip (Toy.config 4))%Z /\
  exists f1 f2 f3 f4,
    DreamEnv.state_buffer Toy.retro
      (DreamEnv.run_calls Toy.retro
         [DreamEnv.CallStep 0 None; DreamEnv.CallReset;
          DreamEnv.CallStep 1 (Some 2%Z)]
         (Toy.nes_env 4 None)) = [f1; f2; f3; f4] /\
    DreamEnv.get_state Toy.retro
      (DreamEnv.run_calls Toy.retro
         [DreamEnv.CallStep 0 None; DreamEnv.CallReset;
          DreamEnv.CallStep 1 (Some 2%Z)]
         (Toy.nes_env 4 None)) = inr (f1 ++ f2 ++ f3 ++ f4).
Proof.
  split; [vm_compute; discriminate|].
  apply (get_state_four_frames Toy.retro (Toy.config 4)).
  vm_compute. discriminate.
Defined.

Lemma get_state_after_step_witness :
  exists env' state,
    DreamEnv.step Toy.retro (Toy.nes_env 4 None) 0 None
      = (env', inr (state, 6%Z, true, None)) /\
    DreamEnv.get_state Toy.retro env' = inr state.
Proof.
  eexists _, _. split; [vm_compute; reflexivity|].
  eapply (get_state_after_step Toy.retro (Toy.nes_env 4 None) 0 None).
  vm_compute. reflexivity.
Defined.

Lemma translate_action_identity_witness :
  DreamEnv.dream_buttons Toy.retro
    (DreamEnv.init Toy.retro (Toy.config 4) Toy.genesis_buttons 12 None None
       false true 1 None (0%Z, []))
    = Toy.genesis_buttons /\
  DreamEnv.translate_action Toy.retro
    (DreamEnv.init Toy.retro (Toy.config 4) Toy.genesis_buttons 12 None None
       false true 1 None (0%Z, []))
    (Z.of_nat 8)
    = inr [0; 0; 0; 0; 0; 0; 0; 0; 1; 0; 0; 0]%Z.
Proof.
  split; [reflexivity|].
  apply (translate_action_identity Toy.retro
           (DreamEnv.init Toy.retro (Toy.config 4) Toy.genesis_buttons 12
              None None false true 1 None (0%Z, [])) 8).
  - reflexivity.
  - change (NoDup Toy.genesis_buttons).
    refine (bool_decide_unpack (NoDup Toy.genesis_buttons) _).
    vm_compute. exact I.
  - reflexivity.
  - vm_compute. lia.
Defined.

Lemma step_not_done_full_repetition_witness :
  exists env' state,
    DreamEnv.step Toy.retro (Toy.nes_env 4 None) 0 (Some 2%Z)
      = (env', inr (state, 3%Z, false, None)) /\
    DreamEnv.frame Toy.retro env' = 3%Z.
Proof.
  eexists _, _. split; [vm_compute; reflexivity|].
  eapply (step_not_done_full_repetition Toy.retro (Toy.nes_env 4 None) 0
            (Some 2%Z)).
  vm_compute. reflexivity.
Defined.

Lemma step_as_retro_steps_witness :
  DreamEnv.translate_action Toy.retro (Toy.nes_env 4 None) 0
    = inr [0; 0; 0; 0; 0; 0; 1; 0; 0]%Z /\
  DreamEnv.em Toy.retro
    (fst (DreamEnv.step Toy.retro (Toy.nes_env 4 None) 0 None))
    = DreamEnv.em Toy.retro
        (DreamEnv.retro_steps Toy.retro 3 [0; 0; 0; 0; 0; 0; 1; 0; 0]%Z
           (Toy.nes_env 4 None)).
Proof.
  split; [reflexivity|].
  exact (proj1 (step_as_retro_steps Toy.retro (Toy.nes_env 4 None) 0 None
                  [0; 0; 0; 0; 0; 0; 1; 0; 0]%Z eq_refl)).
Defined.

Lemma optimize_model_keeps_target_witness :
  exists w' self' optimizer' value,
    DQN.optimize_model Toy.torch Toy.model 0 (Toy.replay Toy.two_transitions)
      2 2%Z Toy.world = (w', inr (self', optimizer', value)) /\
    DQN.policy_net Toy.torch self' <> DQN.policy_net Toy.torch Toy.model /\
    DQN.target_net Toy.torch self' = DQN.target_net Toy.torch Toy.model /\
    DQN.target_grad Toy.torch self' = DQN.target_grad Toy.torch Toy.model.
Proof.
  eexists _, _, _, _. split; [vm_compute; reflexivity|].
  split; [vm_compute; discriminate|].
  eapply (optimize_model_keeps_target Toy.torch Toy.model 0
            (Toy.replay Toy.two_transitions) 2 2%Z Toy.world).
  vm_compute. reflexivity.
Defined.

Lemma optimize_model_samples_once_witness :
  (2 <= DQN.len Toy.torch (Toy.replay Toy.two_transitions))%Z /\
  DQN.sample_calls Toy.torch
    (fst (DQN.optimize_model Toy.torch Toy.model 0
            (Toy.replay Toy.two_transitions) 2 2%Z Toy.world)) = 1.
Proof.
  split; [vm_compute; discriminate|].
  apply (optimize_model_samples_once Toy.torch Toy.model 0
           (Toy.replay Toy.two_transitions) 2 2%Z Toy.world).
  vm_compute. discriminate.
Defined.

Lemma optimize_model_all_terminal_witness :
  DQN.sample Toy.torch (Toy.replay [Toy.tr 2 1 None 7; Toy.tr 3 0 None 1])
    2 Toy.world
    = (DQN.Build_World Toy.torch 1 1,
       inr [Toy.tr 2 1 None 7; Toy.tr 3 0 None 1]) /\
  DQN.optimize_model Toy.torch Toy.model 0
    (Toy.replay [Toy.tr 2 1 None 7; Toy.tr 3 0 None 1]) 2 2%Z Toy.world
    = (DQN.Build_World Toy.torch 1 1, inl RuntimeError).
Proof.
  split; [reflexivity|].
  apply (optimize_model_all_terminal Toy.torch Toy.model 0
           (Toy.replay [Toy.tr 2 1 None 7; Toy.tr 3 0 None 1]) 2 2%Z
           Toy.world (DQN.Build_World Toy.torch 1 1)
           [Toy.tr 2 1 None 7; Toy.tr 3 0 None 1]).
  - vm_compute. discriminate.
  - reflexivity.
  - discriminate.
  - intros tr' Hin. apply elem_of_cons in Hin as [->|Hin]; [reflexivity|].
    apply elem_of_cons in Hin as [->|Hin]; [reflexivity|].
    by apply elem_of_nil in Hin.
Defined.

Lemma optimize_batch_action_out_of_range_witness :
  (2 <= DQN.action (Toy.tr 2 2 None 7))%Z /\
  DQN.optimize_batch Toy.torch Toy.model 0
    [Toy.tr 1 0 (Some 2%Z) 1; Toy.tr 2 2 None 7] 2 2%Z
    = inl RuntimeError.
Proof.
  split; [vm_compute; discriminate|].
  apply (optimize_batch_action_out_of_range Toy.torch Toy.model 0
           [Toy.tr 1 0 (Some 2%Z) 1; Toy.tr 2 2 None 7] 2 2%Z
           (Toy.tr 2 2 None 7)).
  - exists (Toy.tr 1 0 (Some 2%Z) 1). split; [|discriminate].
    apply list_elem_of_here.
  - apply list_elem_of_further, list_elem_of_here.
  - right. vm_compute. discriminate.
Defined.

Lemma optimize_batch_clamps_gradient_witness :
  exists o,
    DQN.optimize_batch Toy.torch Toy.model 0 Toy.two_transitions 2 2%Z
      = inr o /\
    DQN.policy_grad Toy.torch (DQN.out_self Toy.torch o) = Some 1%Z /\
    DQN.policy_net Toy.torch (DQN.out_self Toy.torch o) = 1%Z.
Proof.
  eexists. split; [vm_compute; reflexivity|].
  assert (H : DQN.optimize_batch Toy.torch Toy.model 0 Toy.two_transitions
                2 2%Z = inr (DQN.Build_outcome Toy.torch
                  (DQN.Build_t Toy.torch 1%Z (Some 1%Z) 3%Z None) 1 13%Z None))
    by (vm_compute; reflexivity).
  destruct (optimize_batch_clamps_gradient Toy.torch Toy.model 0
              Toy.two_transitions 2 2%Z _ H) as [Hg Hp].
  split; [exact Hg|reflexivity].
Defined.

Lemma train_steps_done_total_witness :
  exists v,
    DQN.train Toy.torch Toy.gym 5 0%Z Toy.world = inr (v, true) /\
    DQN.tv_steps_done Toy.torch Toy.gym v = 150%Z /\
    length (DQN.tv_episode_durations Toy.torch Toy.gym v) = 50.
Proof.
  eexists. split; [vm_compute; reflexivity|].
  split; [reflexivity|].
  refine (proj1 (train_steps_done_total Toy.torch Toy.gym 5 0%Z Toy.world
                   _ _)).
  vm_compute. reflexivity.
Defined.

Lemma train_episode_target_witness :
  exists v',
    DQN.train_episode Toy.torch Toy.gym 5 2 7
      (DQN.Build_train_vars Toy.torch Toy.gym Toy.model 0%Z 0
         (Toy.replay Toy.two_transitions) Toy.world 0 [] 0%Z 0%Z 0%Z)
      = inr (v', true) /\
    DQN.target_net Toy.torch (DQN.tv_self Toy.torch Toy.gym v') = 3%Z.
Proof.
  eexists. split; [vm_compute; reflexivity|].
  eapply (train_episode_target Toy.torch Toy.gym 5 2 7
            (DQN.Build_train_vars Toy.torch Toy.gym Toy.model 0%Z 0
               (Toy.replay Toy.two_transitions) Toy.world 0 [] 0%Z 0%Z 0%Z)).
  vm_compute. reflexivity.
Defined.


Example train_raises_after_first_episode :
  Trainer.train Toy.runtime Toy.setup 10 Toy.trainer 0%Z None 0 0%Z
    = inl (AttributeError "target_net").
Proof. reflexivity. Qed.

Lemma run_episode_decisions_witness :
  exists v',
    Trainer.run_episode Toy.runtime 5 Toy.train_start = inr (v', false) /\
    length (Trainer.decisions Toy.runtime (Trainer.self Toy.runtime v')) = 3.
Proof.
  eexists. split; [vm_compute; reflexivity|].
  eapply (run_episode_decisions Toy.runtime 5 Toy.train_start).
  vm_compute. reflexivity.
Defined.

Lemma init_feature_size_witness :
  (36 <= 84)%Z /\
  NoisyNetDQN.init (4, 84, 84)%Z 6 1
    = inr (NoisyNetDQN.Build_t (4, 84, 84)%Z 6 1 3136).
Proof.
  split; [lia|].
  apply (proj1 (init_feature_size 4 84 84 6 1 ltac:(lia) ltac:(lia)
                  ltac:(lia))).
  lia.
Defined.

Lemma forward_shape_witness :
  NoisyNetDQN.init (4, 84, 84)%Z 6 51
    = inr (NoisyNetDQN.Build_t (4, 84, 84)%Z 6 51 3136) /\
  NoisyNetDQN.forward (NoisyNetDQN.Build_t (4, 84, 84)%Z 6 51 3136)
    [32; 4; 84; 84]%Z = inr [32; 6; 51]%Z.
Proof.
  split; [reflexivity|].
  apply (forward_shape 4 84 84 6 51 32 _ ltac:(lia) ltac:(lia) ltac:(lia)
           ltac:(lia) eq_refl).
Defined.

Lemma get_screen_layout_witness :
  length [[[255; 0; 51]; [0; 102; 255]]]%Z = 1 /\
  exists screen,
    Screen.get_screen (fun x : Z => (x, 255%Z)) 3
      [[[255; 0; 51]; [0; 102; 255]]]%Z = [screen] /\
    length screen = 3 /\
    Screen.at3 screen 1 0 1 = Some (102%Z, 255%Z).
Proof.
  split; [reflexivity|].
  destruct (get_screen_layout (fun x : Z => (x, 255%Z)) 3 1 2
              [[[255; 0; 51]; [0; 102; 255]]]%Z eq_refl)
    as (screen & Hs & Hl & _ & Hat).
  - intros row Hin. apply list_elem_of_singleton in Hin as ->. reflexivity.
  - intros row px Hin Hpx. apply list_elem_of_singleton in Hin as ->.
    apply elem_of_cons in Hpx as [->|Hpx]; [reflexivity|].
    apply list_elem_of_singleton in Hpx as ->. reflexivity.
  - exists screen. split; [exact Hs|]. split; [exact Hl|].
    exact (Hat 1 0 1 ltac:(lia)).
Defined.

End ConcreteMore.
